(** * vibe-eyes: the temporal blender, the radial amplifier and the
      dual-timescale coordinator

    A shallow embedding of [vibe_eyes/blender.py], [vibe_eyes/amplifier.py],
    [vibe_eyes/ollama_anchor.py], the arithmetic of
    [vibe_eyes/extractor.py] and the coordinator part of
    [vibe_eyes/server.py], followed by the properties the specification
    states about them and by further properties of the code.

    Numbers.  The Python code computes with binary64 floats (numpy arrays
    of five of them).  Here every float is an exact rational ([Q]): the
    arithmetic is the one the source writes, without rounding, NaN or
    infinities.  Equality of computed values is therefore [Qeq] ([==]),
    componentwise on vectors.  Where rounding decides a property, the
    blender is also given with primitive binary64 floats ([Blender64]).

    Time.  [time.time()] is an input: every operation that reads the clock
    takes the value it read as an argument. *)

From Stdlib Require Import Floats.
From Stdlib Require Import QArith Qabs Qminmax Qpower Lqa Lia ZArith.
From Stdlib Require Import List Bool String Ascii Sorting.Permutation Sorting.Sorted.
From Stdlib Require Import Morphisms Setoid.
Import ListNotations.
Open Scope Q_scope.
Set Warnings "-inexact-float".

(* ================================================================== *)
(** * Part I: the embedding *)
(* ================================================================== *)

(** ** VIBE vectors: numpy arrays of shape (5,) *)

Module Vibe.

(** Dimension order: Valence, Arousal, Dominance, Complexity,
    Coherence (indices 0..4). *)
Record vibe : Type := mk {
  valence : Q;
  arousal : Q;
  dominance : Q;
  complexity : Q;
  coherence : Q
}.

Definition vmap (f : Q -> Q) (v : vibe) : vibe :=
  mk (f (valence v)) (f (arousal v)) (f (dominance v))
     (f (complexity v)) (f (coherence v)).

Definition vmap2 (f : Q -> Q -> Q) (a b : vibe) : vibe :=
  mk (f (valence a) (valence b)) (f (arousal a) (arousal b))
     (f (dominance a) (dominance b)) (f (complexity a) (complexity b))
     (f (coherence a) (coherence b)).

(** Elementwise [a + b], [a - b], [a * b] and [a * s] of numpy. *)
Definition vadd : vibe -> vibe -> vibe := vmap2 Qplus.
Definition vsub : vibe -> vibe -> vibe := vmap2 Qminus.
Definition vmul : vibe -> vibe -> vibe := vmap2 Qmult.
Definition vscale (v : vibe) (s : Q) : vibe := vmap (fun x => x * s) v.
Definition vabs : vibe -> vibe := vmap Qabs.

(** [np.clip(x, lo, hi)] is [minimum(maximum(x, lo), hi)]. *)
Definition clip (lo hi x : Q) : Q := Qmin (Qmax x lo) hi.
Definition vclip (lo hi : Q) : vibe -> vibe := vmap (clip lo hi).

(** [a.tolist()] *)
Definition tolist (v : vibe) : list Q :=
  [valence v; arousal v; dominance v; complexity v; coherence v].

(** [a[i]] for an index 0..4 (others do not occur in the sources). *)
Definition at_index (v : vibe) (i : nat) : Q := nth i (tolist v) 0.

(** [a[i] = x] *)
Definition vset (v : vibe) (i : nat) (x : Q) : vibe :=
  match i with
  | 0%nat => mk x (arousal v) (dominance v) (complexity v) (coherence v)
  | 1%nat => mk (valence v) x (dominance v) (complexity v) (coherence v)
  | 2%nat => mk (valence v) (arousal v) x (complexity v) (coherence v)
  | 3%nat => mk (valence v) (arousal v) (dominance v) x (coherence v)
  | 4%nat => mk (valence v) (arousal v) (dominance v) (complexity v) x
  | _ => v
  end.

(** [a.sum()] *)
Definition vsum (v : vibe) : Q :=
  valence v + arousal v + dominance v + complexity v + coherence v.

(** A property of every component, and its boolean form
    ([np.all(...)]) for a decidable test. *)
Definition vall (P : Q -> Prop) (v : vibe) : Prop :=
  P (valence v) /\ P (arousal v) /\ P (dominance v) /\
  P (complexity v) /\ P (coherence v).

Definition vallb (p : Q -> bool) (v : vibe) : bool :=
  p (valence v) && p (arousal v) && p (dominance v) &&
  p (complexity v) && p (coherence v).

(** Componentwise equality of values and membership in [0,1]^5. *)
Definition veq (a b : vibe) : Prop :=
  valence a == valence b /\ arousal a == arousal b /\
  dominance a == dominance b /\ complexity a == complexity b /\
  coherence a == coherence b.

Definition in_unit (v : vibe) : Prop := vall (fun x => 0 <= x <= 1) v.

(** [x < y] on floats, as a boolean. *)
Definition Qltb (x y : Q) : bool := negb (Qle_bool y x).

End Vibe.
Import Vibe.

Declare Scope vibe_scope.
Delimit Scope vibe_scope with vibe.
Infix "=v=" := veq (at level 70, no associativity) : vibe_scope.
Open Scope vibe_scope.

(** ** blender.py: class VIBEBlender *)

Module Blender.

Definition DEFAULT_INFLUENCE : Q := 0.22.
Definition BASELINE_INFLUENCE : Q := 0.70.
Definition HOLD_SECONDS : Q := 0.8.
Definition DECAY_RATE : Q := 0.06.
Definition DWELL_SECONDS : Q := 1.2.

(** The attributes of a [VIBEBlender] instance. *)
Record state : Type := mkState {
  baseline : vibe;
  current : vibe;
  hold_until : Q;
  last_baseline_update : Q;
  dwell_until : Q
}.

(** [__init__]; [now] is the value of [time.time()]. *)
Definition init (now : Q) : state :=
  let baseline := Vibe.mk 0.5 0.5 0.5 0.5 0.8 in
  {| baseline := baseline;
     current := baseline;
     hold_until := 0.0;
     last_baseline_update := now;
     dwell_until := 0.0 |}.

(** [apply_burst(burst, influence=None)]; [now] is the clock value read
    inside.  [current] takes the burst array as it is; only [baseline]
    goes through [np.clip]. *)
Definition apply_burst (now : Q) (burst : vibe) (influence : option Q)
    (s : state) : state :=
  let current := burst in
  let dwell_until := now + DWELL_SECONDS in
  let hold_until := dwell_until + HOLD_SECONDS in
  let alpha := match influence with
               | Some a => a
               | None => DEFAULT_INFLUENCE
               end in
  let baseline := vadd (baseline s) (vscale (vsub current (baseline s)) alpha) in
  {| baseline := vclip 0 1 baseline;
     current := current;
     hold_until := hold_until;
     last_baseline_update := last_baseline_update s;
     dwell_until := dwell_until |}.

(** [apply_baseline(new_baseline)]: a burst with the large influence;
    the clock is read once more ([now']) for [last_baseline_update]. *)
Definition apply_baseline (now now' : Q) (new_baseline : vibe)
    (s : state) : state :=
  let s' := apply_burst now new_baseline (Some BASELINE_INFLUENCE) s in
  {| baseline := baseline s';
     current := current s';
     hold_until := hold_until s';
     last_baseline_update := now';
     dwell_until := dwell_until s' |}.

(** [tick()]: the returned list and the state after the call. *)
Definition tick (now : Q) (s : state) : list Q * state :=
  if Qltb now (hold_until s) then
    (tolist (current s), s)
  else
    let current := vadd (current s)
                        (vscale (vsub (baseline s) (current s)) DECAY_RATE) in
    (tolist current,
     {| baseline := baseline s;
        current := current;
        hold_until := hold_until s;
        last_baseline_update := last_baseline_update s;
        dwell_until := dwell_until s |}).

(** Calls a client can make on a blender, each with the clock values it
    reads, and the state after a sequence of them. *)
Inductive call : Type :=
| Burst (now : Q) (burst : vibe) (influence : option Q)
| Baseline (now now' : Q) (new_baseline : vibe)
| Tick (now : Q).

Definition step (s : state) (c : call) : state :=
  match c with
  | Burst now v infl => apply_burst now v infl s
  | Baseline now now' v => apply_baseline now now' v s
  | Tick now => snd (tick now s)
  end.

Definition run (cs : list call) (s : state) : state := fold_left step cs s.

(** The vector a call hands to the blender, if any. *)
Definition call_vector (c : call) : option vibe :=
  match c with
  | Burst _ v _ => Some v
  | Baseline _ _ v => Some v
  | Tick _ => None
  end.

(** The vector of a call, if it has one, lies in [0,1]^5. *)
Definition clamped_argument (c : call) : Prop :=
  match call_vector c with
  | Some v => in_unit v
  | None => True
  end.

(** [n] successive [tick()] calls at the clock values [nows]: the values
    returned, in order, and the final state. *)
Fixpoint ticks (nows : list Q) (s : state) : list (list Q) * state :=
  match nows with
  | [] => ([], s)
  | now :: rest =>
      let (out, s1) := tick now s in
      let (outs, s2) := ticks rest s1 in
      (out :: outs, s2)
  end.

(** Two states hold the same values. *)
Definition state_eq (s t : state) : Prop :=
  baseline s =v= baseline t /\ current s =v= current t /\
  hold_until s == hold_until t /\
  last_baseline_update s == last_baseline_update t /\
  dwell_until s == dwell_until t.

End Blender.

(** ** amplifier.py: class CinematicAmplifier *)

Module Amplifier.

Definition DEFAULT_DRAMA : Q := 0.65.
Definition MAX_PASSION : Q := 3.5.

(** [self.dimension_weights] *)
Definition dimension_weights : vibe := Vibe.mk 3.0 3.0 1.2 0.3 0.3.

(** [_radial_amplify]: the loop [for i in range(3)] over a copy of
    [values]. *)
Definition _radial_amplify (values : vibe) (passion : Q) : vibe :=
  fold_left
    (fun result i =>
       let delta := at_index values i - 0.5 in
       let magnitude := Qabs delta in
       let gain := 1 + passion * magnitude in
       vset result i (0.5 + delta * gain))
    (seq 0 3) values.

(** [amplify_passion] *)
Definition amplify_passion (values : vibe) (passion : Q) : vibe :=
  let passion := Qmax 0.0 (Qmin MAX_PASSION passion) in
  let amplified := _radial_amplify values passion in
  vclip 0.0 1.0 amplified.

(** [a[:k]] on a Python list or array, for any integer [k]. *)
Definition slice_to {A : Type} (k : Z) (l : list A) : list A :=
  if (0 <=? k)%Z then firstn (Z.to_nat k) l
  else firstn (List.length l - Z.to_nat (- k)) l.

(** [np.argsort(distances)]: the indices in order of increasing value.
    numpy's default sort does not fix the order of equal values; here
    equal values keep their index order. *)
Fixpoint insert_index (ds : list Q) (i : nat) (sorted : list nat) : list nat :=
  match sorted with
  | [] => [i]
  | j :: rest =>
      if Qle_bool (nth i ds 0) (nth j ds 0) then i :: j :: rest
      else j :: insert_index ds i rest
  end.

Definition argsort (ds : list Q) : list nat :=
  fold_right (insert_index ds) [] (seq 0 (List.length ds)).

(** The order [argsort] puts the indices in. *)
Definition key_le (ds : list Q) (i j : nat) : Prop :=
  nth i ds 0 <= nth j ds 0.

(** Sum of a list of numbers and of a list of vectors (along axis 0). *)
Definition qsum (l : list Q) : Q := fold_right Qplus 0 l.
Definition vzero : vibe := Vibe.mk 0 0 0 0 0.
Definition vsum_rows (rows : list vibe) : vibe := fold_right vadd vzero rows.

(** [np.average(rows, axis=0, weights=w)]: [sum(rows * w) / sum(w)];
    numpy raises ZeroDivisionError when the weights sum to zero. *)
Definition average (rows : list vibe) (w : list Q) : option vibe :=
  let scl := qsum w in
  if Qeq_bool scl 0 then None
  else Some (vscale (vsum_rows (map (fun rw => vscale (fst rw) (snd rw))
                                    (combine rows w)))
                    (/ scl)).

Section WithLibrary.

(** The square root inside [np.linalg.norm], and the exemplar vectors
    [self.cinematic_space] read from the dataset at construction
    (neither is part of the sources). *)
Variable sqrt : Q -> Q.
Variable cinematic_space : list vibe.

(** [np.linalg.norm(row)] *)
Definition norm (v : vibe) : Q := sqrt (vsum (vmul v v)).

(** The distance of one exemplar from [vad_cc]: the norm of the
    difference scaled by the dimension weights. *)
Definition distance (vad_cc ex : vibe) : Q :=
  norm (vmul (vsub ex vad_cc) dimension_weights).

Definition distances (vad_cc : vibe) : list Q :=
  map (distance vad_cc) cinematic_space.

(** [_nearest_exemplar(vad_cc, k)].  [None] stands for the exception
    Python raises (an empty selection indexed at 0, or weights that
    sum to zero) and for a division by zero in the weights. *)
Definition _nearest_exemplar (vad_cc : vibe) (k : Z) : option vibe :=
  let ds := distances vad_cc in
  let nearest_idx := slice_to k (argsort ds) in
  if (k =? 1)%Z then
    match nearest_idx with
    | i :: _ => nth_error cinematic_space i
    | [] => None
    end
  else
    let dn := map (fun i => nth i ds 0 + 0.01) nearest_idx in
    if existsb (fun d => Qeq_bool d 0) dn then None
    else
      let weights := map (fun d => 1.0 / d) dn in
      let total := qsum weights in
      if Qeq_bool total 0 then None
      else
        let weights := map (fun w => w / total) weights in
        average (map (fun i => nth i cinematic_space vzero) nearest_idx)
                weights.

(** [snap_drama(values, drama, k=1)] *)
Definition snap_drama (values : vibe) (drama : Q) (k : Z) : option vibe :=
  let drama := Qmax 0.0 (Qmin 1.0 drama) in
  if Qle_bool drama 0 then Some values
  else
    match _nearest_exemplar values k with
    | None => None
    | Some target =>
        let snapped := vadd values (vscale (vsub target values) drama) in
        Some (vclip 0.0 1.0 snapped)
    end.

(** [amplify(natural, passion=1.0, drama=None, k=1)] *)
Definition amplify (natural : vibe) (passion : Q) (drama : option Q)
    (k : Z) : option vibe :=
  let drama := match drama with Some d => d | None => DEFAULT_DRAMA end in
  let post_passion := amplify_passion natural passion in
  snap_drama post_passion drama k.

End WithLibrary.

(** A square root on rationals for running the definitions: the integer
    square root of the argument scaled by 10^12, over 10^6. *)
Definition sqrt6 (x : Q) : Q :=
  Z.sqrt (Qnum x * 1000000000000 / Z.pos (Qden x)) # 1000000.

End Amplifier.

(** ** ollama_anchor.py: class OllamaAnchor *)

Module Anchor.

Local Open Scope N_scope.

(** A Python [str]: the list of its code points.  The reply of the model
    reaches the embedding as UTF-8 bytes (a Rocq [string]) and is decoded
    first. *)
Definition text : Type := list N.

(** The payload of a UTF-8 continuation byte. *)
Definition continuation (c : ascii) : option N :=
  let n := N_of_ascii c in
  if (128 <=? n) && (n <? 192) then Some (n - 128) else None.

(** UTF-8 decoding; a byte that starts no well-formed sequence becomes
    U+FFFD (this does not occur in text Python hands over). *)
Fixpoint decode (s : string) : text :=
  match s with
  | EmptyString => []
  | String b r =>
      let n := N_of_ascii b in
      if n <? 128 then n :: decode r
      else if (192 <=? n) && (n <? 224) then
        match r with
        | String c1 r1 =>
            match continuation c1 with
            | Some p1 => ((n - 192) * 64 + p1) :: decode r1
            | None => 65533 :: decode r
            end
        | EmptyString => 65533 :: decode r
        end
      else if (224 <=? n) && (n <? 240) then
        match r with
        | String c1 (String c2 r2) =>
            match continuation c1, continuation c2 with
            | Some p1, Some p2 =>
                ((n - 224) * 4096 + p1 * 64 + p2) :: decode r2
            | _, _ => 65533 :: decode r
            end
        | _ => 65533 :: decode r
        end
      else if (240 <=? n) && (n <? 248) then
        match r with
        | String c1 (String c2 (String c3 r3)) =>
            match continuation c1, continuation c2, continuation c3 with
            | Some p1, Some p2, Some p3 =>
                ((n - 240) * 262144 + p1 * 4096 + p2 * 64 + p3) :: decode r3
            | _, _, _ => 65533 :: decode r
            end
        | _ => 65533 :: decode r
        end
      else 65533 :: decode r
  end.

(** The code points of the digit zero of every run of decimal digits of
    Unicode 14.0 (general category Nd), the character database of
    CPython 3.11: each is followed by its digits one to nine. *)
Definition zero_digits : list N :=
  [48; 1632; 1776; 1984; 2406; 2534; 2662; 2790; 2918; 3046; 3174; 3302;
   3430; 3558; 3664; 3792; 3872; 4160; 4240; 6112; 6160; 6470; 6608; 6784;
   6800; 6992; 7088; 7232; 7248; 42528; 43216; 43264; 43472; 43504; 43600;
   44016; 65296; 66720; 68912; 69734; 69872; 69942; 70096; 70384; 70736;
   70864; 71248; 71360; 71472; 71904; 72016; 72784; 73040; 73120; 92768;
   92864; 93008; 120782; 120792; 120802; 120812; 120822; 123200; 123632;
   125264; 130032].

(** The decimal value of a code point, if it is a decimal digit: what
    [\d] tests and [float()] reads. *)
Definition decimal (c : N) : option N :=
  match find (fun z => (z <=? c) && (c <? z + 10)) zero_digits with
  | Some z => Some (c - z)
  | None => None
  end.

Definition is_digit (c : N) : bool :=
  match decimal c with
  | Some _ => true
  | None => false
  end.

(** The code points [str.isspace()] accepts. *)
Definition spaces : list N :=
  [9; 10; 11; 12; 13; 28; 29; 30; 31; 32; 133; 160; 5760; 8192; 8193; 8194;
   8195; 8196; 8197; 8198; 8199; 8200; 8201; 8202; 8232; 8233; 8239; 8287;
   12288].

Definition is_space (c : N) : bool := existsb (N.eqb c) spaces.

Fixpoint lstrip (s : text) : text :=
  match s with
  | [] => []
  | c :: r => if is_space c then lstrip r else s
  end.

(** [s.strip()] *)
Definition strip (s : text) : text := rev (lstrip (rev (lstrip s))).

(** The longest prefix whose characters satisfy [p]. *)
Fixpoint take_while (p : N -> bool) (s : text) : text :=
  match s with
  | [] => []
  | c :: r => if p c then c :: take_while p r else []
  end.

(** One match of [0\.\d+|1\.0+|[01]] starting at the head of [s]: the
    alternatives are tried in order, each repetition is greedy.  The
    characters 0, 1 and the point are the code points 48, 49 and 46. *)
Definition match_at (s : text) : option text :=
  match s with
  | [] => None
  | c0 :: r0 =>
      let single :=
        if (c0 =? 48) || (c0 =? 49) then Some [c0] else None in
      match r0 with
      | c1 :: c2 :: r2 =>
          if (c0 =? 48) && (c1 =? 46) && is_digit c2 then
            Some (c0 :: c1 :: c2 :: take_while is_digit r2)
          else if (c0 =? 49) && (c1 =? 46) && (c2 =? 48) then
            Some (c0 :: c1 :: c2 :: take_while (fun c => c =? 48) r2)
          else single
      | _ => single
      end
  end.

(** [re.findall(r"0\.\d+|1\.0+|[01]", s)]: the matches from left to
    right, without overlap; [skip] counts the characters of the last
    match still to pass over. *)
Fixpoint findall_from (skip : nat) (s : text) : list text :=
  match s with
  | [] => []
  | _ :: r =>
      match skip with
      | S n => findall_from n r
      | O =>
          match match_at s with
          | Some m => m :: findall_from (List.length m - 1) r
          | None => findall_from 0 r
          end
      end
  end.

Definition findall (s : text) : list text := findall_from 0 s.

(** [float(n)] for a token of digits with at most one point. *)
Definition digit_value (c : N) : Z :=
  match decimal c with
  | Some d => Z.of_N d
  | None => 0%Z
  end.

Fixpoint digits_value (acc : Z) (s : text) : Z :=
  match s with
  | [] => acc
  | c :: r => digits_value (10 * acc + digit_value c)%Z r
  end.

Fixpoint after_point (s : text) : text :=
  match s with
  | [] => []
  | c :: r => if c =? 46 then r else after_point r
  end.

Definition float_of (tok : text) : Q :=
  let int_part := take_while is_digit tok in
  let frac_part := take_while is_digit (after_point tok) in
  (digits_value 0 (int_part ++ frac_part)
   # Z.to_pos (10 ^ Z.of_nat (List.length frac_part)))%Q.

Definition in_range (v : Q) : bool := Qle_bool 0.0 v && Qle_bool v 1.0.

(** [extract_baseline(text)].  The call to [ollama.generate] is outside
    the sources: [response] is the text it returned, [None] when it (or
    reading the reply) raised.  The prompt text does not take part in
    what follows, so [text] is no argument here.  A Python list of
    exactly five floats is returned as a [vibe]. *)
Definition extract_baseline (available : bool) (response : option string)
    : option vibe :=
  if negb available then None
  else
    match response with
    | None => None
    | Some raw =>
        let output := strip (decode raw) in
        let numbers := findall output in
        let baseline := map float_of (firstn 5 numbers) in
        if (List.length baseline =? 5)%nat && forallb in_range baseline then
          match baseline with
          | [v; a; d; cx; ch] => Some (Vibe.mk v a d cx ch)
          | _ => None
          end
        else None
    end.

End Anchor.

(** ** server.py: the decay loop and the slow-baseline coordinator *)

Module Server.

Import Blender.
Local Open Scope string_scope.

Definition PASSION : Q := 2.25.
Definition DRAMA : Q := 0.65.
Definition BASELINE_WINDOW_WORDS : nat := 100.
Definition CONTEXT_MAXLEN : nat := 200.

(** The last [n] elements: [l[-n:]] for positive [n]. *)
Definition lastn {A : Type} (n : nat) (l : list A) : list A :=
  skipn (List.length l - n) l.

(** [deque(maxlen=200).extend(words)] *)
Definition extend (buffer words : list string) : list string :=
  lastn CONTEXT_MAXLEN (buffer ++ words).

(** [_get_recent_context_text(max_words)] *)
Definition _get_recent_context_text (buffer : list string) (max_words : nat)
    : string :=
  match buffer with
  | [] => ""
  | _ => String.concat " " (lastn max_words buffer)
  end.

(** [_has_settled_to_baseline(threshold=0.02)] *)
Definition _has_settled_to_baseline (b : Blender.state) (threshold : Q)
    : bool :=
  let diff := vabs (vsub (current b) (baseline b)) in
  vallb (fun d => Qltb d threshold) diff.

(** The module globals, and what the event loop holds: the arguments
    of the [_trigger_slow_baseline] tasks created and not yet finished,
    and whether [_startup_warm_baseline] still awaits its request. *)
Record server : Type := mkServer {
  blender : Blender.state;
  anchor_available : bool;
  context_buffer : list string;
  last_vibe : list Q;
  transcript_count : nat;
  _slow_pending : bool;
  _slow_in_flight : bool;
  slow_tasks : list string;
  warm_task : bool
}.

(** [startup()]: the components are built, then the warm-up task and
    the decay loop are created. *)
Definition startup (now : Q) (available : bool) : server :=
  {| blender := Blender.init now;
     anchor_available := available;
     context_buffer := [];
     last_vibe := [0.5; 0.5; 0.5; 0.5; 0.8];
     transcript_count := 0;
     _slow_pending := false;
     _slow_in_flight := false;
     slow_tasks := [];
     warm_task := true |}.

Definition set_blender (b : Blender.state) (s : server) : server :=
  {| blender := b;
     anchor_available := anchor_available s;
     context_buffer := context_buffer s;
     last_vibe := last_vibe s;
     transcript_count := transcript_count s;
     _slow_pending := _slow_pending s;
     _slow_in_flight := _slow_in_flight s;
     slow_tasks := slow_tasks s;
     warm_task := warm_task s |}.

Definition set_last_vibe (v : list Q) (s : server) : server :=
  {| blender := blender s;
     anchor_available := anchor_available s;
     context_buffer := context_buffer s;
     last_vibe := v;
     transcript_count := transcript_count s;
     _slow_pending := _slow_pending s;
     _slow_in_flight := _slow_in_flight s;
     slow_tasks := slow_tasks s;
     warm_task := warm_task s |}.

Definition set_flags (pending in_flight : bool) (tasks : list string)
    (s : server) : server :=
  {| blender := blender s;
     anchor_available := anchor_available s;
     context_buffer := context_buffer s;
     last_vibe := last_vibe s;
     transcript_count := transcript_count s;
     _slow_pending := pending;
     _slow_in_flight := in_flight;
     slow_tasks := tasks;
     warm_task := warm_task s |}.

(** One iteration of the [while True] body of [decay_loop], up to its
    [await asyncio.sleep(0.1)].  [device.send] only reads. *)
Definition decay_loop_body (now : Q) (s : server) : server :=
  let (vibe, b) := tick now (blender s) in
  let s := set_blender b s in
  if _slow_pending s && negb (_slow_in_flight s)
     && _has_settled_to_baseline (blender s) 0.02 then
    let context_text :=
      _get_recent_context_text (context_buffer s) BASELINE_WINDOW_WORDS in
    if negb (context_text =? "") then
      set_flags (_slow_pending s) true (slow_tasks s ++ [context_text]) s
    else s
  else s.

(** What the request made through the executor came back with:
    [run_in_executor] raised, or [slow_anchor.extract_baseline] ran with
    this reply of the model. *)
Inductive reply : Type :=
| ExecutorRaised
| Generated (response : option string).

(** [_update_baseline_async(context_text)]: the value it returns. *)
Definition _update_baseline_async (s : server) (r : reply) : option vibe :=
  match r with
  | ExecutorRaised => None
  | Generated response =>
      Anchor.extract_baseline (anchor_available s) response
  end.

(** The [if ollama_vibe: ... else: ...] part shared by
    [_trigger_slow_baseline] and [_startup_warm_baseline]. *)
Definition apply_reply (ollama_vibe : option vibe) (now now' : Q)
    (s : server) : server :=
  match ollama_vibe with
  | Some v =>
      let b := apply_baseline now now' v (blender s) in
      set_last_vibe (tolist (current b)) (set_blender b s)
  | None => s
  end.

(** [_trigger_slow_baseline]: from the return of its [await] to the end
    of the [finally] block.  Without a task waiting there is nothing to
    resume. *)
Definition _trigger_slow_baseline (r : reply) (now now' : Q) (s : server)
    : server :=
  match slow_tasks s with
  | [] => s
  | _ :: tasks =>
      let s := apply_reply (_update_baseline_async s r) now now' s in
      set_flags false false tasks s
  end.

(** [_startup_warm_baseline]: from the return of its [await] on. *)
Definition _startup_warm_baseline (r : reply) (now now' : Q) (s : server)
    : server :=
  if warm_task s then
    let s := apply_reply (_update_baseline_async s r) now now' s in
    {| blender := blender s;
       anchor_available := anchor_available s;
       context_buffer := context_buffer s;
       last_vibe := last_vibe s;
       transcript_count := transcript_count s;
       _slow_pending := _slow_pending s;
       _slow_in_flight := _slow_in_flight s;
       slow_tasks := slow_tasks s;
       warm_task := false |}
  else s.

(** A [/transcript] request: [words] is [text.strip().split()],
    [sentences] gives for each sentence of [nltk.sent_tokenize(text)] the
    clock value and the vector [post_drama] the extractor and the
    amplifier produced for it. *)
Record payload : Type := mkPayload {
  words : list string;
  influence : option Q;
  sentences : list (Q * vibe)
}.

(** [receive_transcript(payload)]; [None] is an HTTP 400 answer, given
    before anything is changed. *)
Definition receive_transcript (p : payload) (s : server) : option server :=
  match words p with
  | [] => None
  | _ =>
      let bad_influence :=
        match influence p with
        | Some i => negb (Qle_bool 0 i && Qle_bool i 1)
        | None => false
        end in
      if bad_influence then None
      else
        let influence_used :=
          match influence p with
          | Some i => i
          | None => DEFAULT_INFLUENCE
          end in
        let after :=
          fold_left
            (fun (acc : Blender.state * list Q) (sn : Q * vibe) =>
               let b := apply_burst (fst sn) (snd sn) (Some influence_used)
                                    (fst acc) in
               (b, tolist (current b)))
            (sentences p) (blender s, last_vibe s) in
        Some {| blender := fst after;
                anchor_available := anchor_available s;
                context_buffer := extend (context_buffer s) (words p);
                last_vibe := snd after;
                transcript_count := S (transcript_count s);
                _slow_pending := true;
                _slow_in_flight := _slow_in_flight s;
                slow_tasks := slow_tasks s;
                warm_task := warm_task s |}
  end.

(** The pieces of code the event loop runs without interruption, in any
    order the requests, timers and replies arrive in. *)
Inductive event : Type :=
| DecayTick (now : Q)
| Transcript (p : payload)
| SlowDone (r : reply) (now now' : Q)
| WarmDone (r : reply) (now now' : Q).

Definition handle (s : server) (e : event) : server :=
  match e with
  | DecayTick now => decay_loop_body now s
  | Transcript p =>
      match receive_transcript p s with
      | Some s' => s'
      | None => s
      end
  | SlowDone r now now' => _trigger_slow_baseline r now now' s
  | WarmDone r now now' => _startup_warm_baseline r now now' s
  end.

Definition run (es : list event) (s : server) : server :=
  fold_left handle es s.

(** What the flags say about the tasks of the decay loop: at most one
    is alive, and exactly when [_slow_in_flight] is set. *)
Definition one_task (s : server) : Prop :=
  (List.length (slow_tasks s) <= 1)%nat /\
  (_slow_in_flight s = true <-> List.length (slow_tasks s) = 1%nat).


(** Requests to the slow estimator made and not yet answered. *)
Definition outstanding (s : server) : nat :=
  (List.length (slow_tasks s) + (if warm_task s then 1 else 0))%nat.

End Server.

(** ** The debugging helpers of blender.py and amplifier.py *)

Module Debug.

Import Blender Amplifier.



(** A record of the exemplar dataset: its "input", "name" and "source"
    entries. *)
Record example : Type := mkExample {
  input : vibe;
  name : string;
  source : string
}.

(** What [__init__] reads off [self.examples]. *)
Definition cinematic_space (examples : list example) : list vibe :=
  map input examples.
Definition example_names (examples : list example) : list string :=
  map name examples.
Definition example_sources (examples : list example) : list string :=
  map source examples.

(** [get_nearest_exemplar(vad_cc, k=1)]: name, source and distance of
    the selected exemplars.  The three lists have the length of the
    dataset, so no index is out of range. *)
Definition get_nearest_exemplar (sqrt : Q -> Q) (examples : list example)
    (vad_cc : vibe) (k : Z) : list (string * string * Q) :=
  let ds := distances sqrt (cinematic_space examples) vad_cc in
  let nearest_idx := slice_to k (argsort ds) in
  map (fun idx =>
         (nth idx (example_names examples) EmptyString,
          nth idx (example_sources examples) EmptyString,
          nth idx ds 0))
      nearest_idx.

End Debug.

(** ** extractor.py: class VIBEExtractor *)

Module Extractor.

(** A lexicon entry [[v, a, d]]. *)
Definition vad : Type := (Q * Q * Q)%type.

Definition vad_add (x y : vad) : vad :=
  let '(a, b, c) := x in let '(a', b', c') := y in (a + a', b + b', c + c').

Definition vad_scale (x : vad) (s : Q) : vad :=
  let '(a, b, c) := x in (a * s, b * s, c * s).

(** [np.average(vad_array, axis=0, weights=weights_array)]; numpy raises
    ZeroDivisionError when the weights sum to zero ([None]). *)
Definition vad_average (rows : list vad) (w : list Q) : option vad :=
  let scl := fold_right Qplus 0 w in
  if Qeq_bool scl 0 then None
  else Some (vad_scale
               (fold_right vad_add (0, 0, 0)
                  (map (fun rw => vad_scale (fst rw) (snd rw)) (combine rows w)))
               (/ scl)).

Section WithLexicon.

(** [self.vad_lexicon]: the dict built by [_load_nrc_vad], as its lookup. *)
Variable vad_lexicon : string -> option vad.

(** The two lists the loop of [_get_vad] builds, one entry per word. *)
Definition vad_entry (w : string) : vad * Q :=
  match vad_lexicon w with
  | Some (v, a, d) =>
      let intensity := Qabs (v - 0.5) + Qabs (a - 0.5) + Qabs (d - 0.5) in
      ((v, a, d), (intensity + 0.01) ^ 2)
  | None => ((0.5, 0.5, 0.5), 0.01)
  end.

(** [_get_vad(text)]; [words] is [nltk.word_tokenize(text.lower())]. *)
Definition _get_vad (words : list string) : option vad :=
  let entries := map vad_entry words in
  let vad_values := map fst entries in
  let weights := map snd entries in
  match vad_values with
  | [] => Some (0.5, 0.5, 0.5)
  | _ => vad_average vad_values weights
  end.

End WithLexicon.

(** [_get_complexity(text)]; [fk_grade] is what [flesch_kincaid_grade]
    returned, [None] when it raised. *)
Definition _get_complexity (fk_grade : option Q) : Q :=
  match fk_grade with
  | Some g => Qmin 1.0 (Qmax 0.0 (g / 20.0))
  | None => 0.5
  end.

(** [np.dot] of two embeddings and [np.mean] of a list. *)
Definition dot (x y : list Q) : Q :=
  fold_right Qplus 0 (map (fun p => fst p * snd p) (combine x y)).

Definition mean (l : list Q) : Q :=
  fold_right Qplus 0 l / inject_Z (Z.of_nat (List.length l)).

(** The products of neighbouring embeddings. *)
Fixpoint similarities (embeddings : list (list Q)) : list Q :=
  match embeddings with
  | e1 :: ((e2 :: _) as rest) => dot e1 e2 :: similarities rest
  | _ => []
  end.

(** [_get_coherence(text)]; [embeddings] holds one embedding for each
    sentence of [nltk.sent_tokenize(text)]. *)
Definition _get_coherence (embeddings : list (list Q)) : Q :=
  if (List.length embeddings <? 2)%nat then 0.8
  else (mean (similarities embeddings) + 1) / 2.

(** [extract(text)], from the three readings. *)
Definition extract (reading : vad) (complexity coherence : Q) : vibe :=
  let '(v, a, d) := reading in
  Vibe.mk (clip 0 1 v) (clip 0 1 a) (clip 0 1 d)
          (clip 0 1 complexity) (clip 0 1 coherence).

End Extractor.

(** ** server.py: the per-sentence steps of [receive_transcript] and
    counts over a run of the event loop *)

Module Pipeline.

Import Blender Amplifier Server.

(** Steps 2 and 3 of the loop over the sentences: the vector handed to
    [apply_burst] for a natural reading. *)
Definition post_drama (sqrt : Q -> Q) (cinematic_space : list vibe)
    (natural : vibe) : option vibe :=
  let post_passion := amplify_passion natural PASSION in
  snap_drama sqrt cinematic_space post_passion DRAMA 1.

(** Whether this event is an iteration of the decay loop that creates a
    [_trigger_slow_baseline] task. *)
Definition dispatches (s : server) (e : event) : bool :=
  match e with
  | DecayTick now =>
      (List.length (slow_tasks s)
       <? List.length (slow_tasks (decay_loop_body now s)))%nat
  | _ => false
  end.

(** The number of tasks created along a run. *)
Fixpoint dispatch_count (es : list event) (s : server) : nat :=
  match es with
  | [] => 0
  | e :: rest =>
      ((if dispatches s e then 1 else 0) + dispatch_count rest (handle s e))%nat
  end.


(** A request can be made: the pending flag is set and none is in
    flight. *)
Definition armed (s : server) : nat :=
  if _slow_pending s && negb (_slow_in_flight s) then 1%nat else 0%nat.

(** A list of values within [0,1], and a server whose blender and
    [last_vibe] hold only such values. *)
Definition list_in_unit (l : list Q) : Prop := Forall (fun x => 0 <= x <= 1) l.

Definition server_in_range (s : server) : Prop :=
  in_unit (baseline (blender s)) /\ in_unit (current (blender s)) /\
  list_in_unit (last_vibe s).

(** Every vector a transcript hands over lies in [0,1]^5. *)
Definition clamped_event (e : event) : Prop :=
  match e with
  | Transcript p => Forall (fun sn => in_unit (snd sn)) (sentences p)
  | _ => True
  end.

End Pipeline.

(** ** blender.py in binary64

    The same code as [Blender], with the floats of the source: every
    operation is the IEEE 754 binary64 one, round to nearest even, as
    numpy and Python compute it.  Decimal constants stand for the nearest
    binary64 value, as in the source. *)

Module Blender64.

Local Open Scope float_scope.

Definition DEFAULT_INFLUENCE : float := 0.22.
Definition BASELINE_INFLUENCE : float := 0.70.
Definition HOLD_SECONDS : float := 0.8.
Definition DECAY_RATE : float := 0.06.
Definition DWELL_SECONDS : float := 1.2.

(** A numpy array of five binary64 values. *)
Record fvibe : Type := fmk {
  fvalence : float;
  farousal : float;
  fdominance : float;
  fcomplexity : float;
  fcoherence : float
}.

Definition fmap (f : float -> float) (v : fvibe) : fvibe :=
  fmk (f (fvalence v)) (f (farousal v)) (f (fdominance v))
      (f (fcomplexity v)) (f (fcoherence v)).

Definition fmap2 (f : float -> float -> float) (a b : fvibe) : fvibe :=
  fmk (f (fvalence a) (fvalence b)) (f (farousal a) (farousal b))
      (f (fdominance a) (fdominance b)) (f (fcomplexity a) (fcomplexity b))
      (f (fcoherence a) (fcoherence b)).

Definition fadd : fvibe -> fvibe -> fvibe := fmap2 PrimFloat.add.
Definition fsub : fvibe -> fvibe -> fvibe := fmap2 PrimFloat.sub.
Definition fscale (v : fvibe) (s : float) : fvibe := fmap (fun x => x * s) v.

(** [np.clip(x, lo, hi)] on one value: numpy's minimum of the maximum,
    a NaN passing through. *)
Definition fclip (lo hi x : float) : float :=
  let m := if PrimFloat.is_nan x then x else if lo <? x then x else lo in
  if PrimFloat.is_nan m then m else if m <? hi then m else hi.

Definition fvclip (lo hi : float) : fvibe -> fvibe := fmap (fclip lo hi).

Definition ftolist (v : fvibe) : list float :=
  [fvalence v; farousal v; fdominance v; fcomplexity v; fcoherence v].

Record state : Type := mkState {
  baseline : fvibe;
  current : fvibe;
  hold_until : float;
  last_baseline_update : float;
  dwell_until : float
}.

(** [__init__] *)
Definition init (now : float) : state :=
  let baseline := fmk 0.5 0.5 0.5 0.5 0.8 in
  {| baseline := baseline;
     current := baseline;
     hold_until := 0.0;
     last_baseline_update := now;
     dwell_until := 0.0 |}.

(** [apply_burst(burst, influence=None)] *)
Definition apply_burst (now : float) (burst : fvibe)
    (influence : option float) (s : state) : state :=
  let current := burst in
  let dwell_until := now + DWELL_SECONDS in
  let hold_until := dwell_until + HOLD_SECONDS in
  let alpha := match influence with
               | Some a => a
               | None => DEFAULT_INFLUENCE
               end in
  let baseline := fadd (baseline s) (fscale (fsub current (baseline s)) alpha) in
  {| baseline := fvclip 0 1 baseline;
     current := current;
     hold_until := hold_until;
     last_baseline_update := last_baseline_update s;
     dwell_until := dwell_until |}.

(** [tick()] *)
Definition tick (now : float) (s : state) : list float * state :=
  if now <? hold_until s then
    (ftolist (current s), s)
  else
    let current := fadd (current s)
                        (fscale (fsub (baseline s) (current s)) DECAY_RATE) in
    (ftolist current,
     {| baseline := baseline s;
        current := current;
        hold_until := hold_until s;
        last_baseline_update := last_baseline_update s;
        dwell_until := dwell_until s |}).

(** The state after [n] calls of [tick()] at the clock value [now]. *)
Fixpoint ticks (n : nat) (now : float) (s : state) : state :=
  match n with
  | O => s
  | S m => ticks m now (snd (tick now s))
  end.

End Blender64.

(* ================================================================== *)
(** * Part II: properties *)
(* ================================================================== *)

(** ** Comparisons, clipping and vectors *)

Lemma Qltb_lt (x y : Q) : Qltb x y = true <-> x < y.
Proof.
  unfold Qltb. rewrite negb_true_iff.
  destruct (Qle_bool y x) eqn:E.
  - apply Qle_bool_iff in E. split; [discriminate | intro; lra].
  - split; [intros _ | reflexivity].
    apply Qnot_le_lt. intro H. apply Qle_bool_iff in H. congruence.
Qed.

Lemma Qltb_ge (x y : Q) : Qltb x y = false <-> y <= x.
Proof.
  destruct (Qltb x y) eqn:E.
  - apply Qltb_lt in E. split; [discriminate | intro; lra].
  - split; [intros _ | reflexivity].
    apply Qnot_lt_le. intro H. apply Qltb_lt in H. congruence.
Qed.

Lemma clip_bounds (lo hi x : Q) : lo <= hi -> lo <= clip lo hi x <= hi.
Proof.
  intro H. unfold clip. split.
  - apply Q.min_glb; [apply Q.le_max_r | exact H].
  - apply Q.le_min_r.
Qed.

Lemma clip_inside (lo hi x : Q) : lo <= x <= hi -> clip lo hi x == x.
Proof.
  intros [H1 H2]. unfold clip.
  rewrite (Q.max_l x lo H1). apply Q.min_l. exact H2.
Qed.

Lemma clip_above (lo hi x : Q) : lo <= hi -> hi <= x -> clip lo hi x == hi.
Proof.
  intros H1 H2. unfold clip.
  rewrite (Q.max_l x lo) by lra. apply Q.min_r. exact H2.
Qed.

#[export] Instance clip_proper : Proper (Qeq ==> Qeq ==> Qeq ==> Qeq) clip.
Proof.
  intros lo lo' Hlo hi hi' Hhi x x' Hx. unfold clip.
  rewrite Hlo, Hhi, Hx. reflexivity.
Qed.

#[export] Instance veq_equivalence : Equivalence veq.
Proof.
  split.
  - intros [a b c d e]. unfold veq; simpl. repeat split; reflexivity.
  - intros x y (H1 & H2 & H3 & H4 & H5). unfold veq.
    repeat split; symmetry; assumption.
  - intros x y z (H1 & H2 & H3 & H4 & H5) (K1 & K2 & K3 & K4 & K5).
    unfold veq. repeat split; etransitivity; eassumption.
Qed.

Lemma vclip_in_unit (v : vibe) : in_unit (vclip 0 1 v).
Proof.
  unfold in_unit, vall, vclip, vmap; simpl.
  repeat split; apply clip_bounds; lra.
Qed.

Lemma vclip_inside (v : vibe) : in_unit v -> vclip 0 1 v =v= v.
Proof.
  intros (H1 & H2 & H3 & H4 & H5). unfold veq, vclip, vmap; simpl.
  repeat split; apply clip_inside; assumption.
Qed.

(** A statement about the five indices is one about the five fields. *)
Lemma forall_index (P : nat -> Prop) :
  (forall i, (i < 5)%nat -> P i) <->
  P 0%nat /\ P 1%nat /\ P 2%nat /\ P 3%nat /\ P 4%nat.
Proof.
  split.
  - intro H. repeat split; apply H; lia.
  - intros (H0 & H1 & H2 & H3 & H4) i Hi.
    destruct i as [|[|[|[|[|i]]]]]; try assumption; lia.
Qed.

Lemma in_unit_index (v : vibe) :
  in_unit v <-> forall i, (i < 5)%nat -> 0 <= at_index v i <= 1.
Proof. rewrite forall_index. unfold in_unit, vall, at_index. simpl. tauto. Qed.

Lemma veq_index (a b : vibe) :
  a =v= b <-> forall i, (i < 5)%nat -> at_index a i == at_index b i.
Proof. rewrite forall_index. unfold veq, at_index. simpl. tauto. Qed.

(** ** The blender *)

Import Blender.

Ltac vec_unfold :=
  unfold veq, in_unit, vall, vadd, vsub, vscale, vmul, vabs, vclip, vmap,
    vmap2, at_index in *; simpl in *.

#[export] Instance state_eq_equivalence : Equivalence state_eq.
Proof.
  split.
  - intro s. unfold state_eq.
    do 4 (split; [reflexivity|]). reflexivity.
  - intros s t (H1 & H2 & H3 & H4 & H5). unfold state_eq.
    do 4 (split; [symmetry; assumption|]). symmetry; assumption.
  - intros s t u (H1 & H2 & H3 & H4 & H5) (K1 & K2 & K3 & K4 & K5).
    unfold state_eq.
    do 4 (split; [etransitivity; eassumption|]). etransitivity; eassumption.
Qed.

Lemma tolist_veq (a b : vibe) : a =v= b -> Forall2 Qeq (tolist a) (tolist b).
Proof.
  intros (H1 & H2 & H3 & H4 & H5). unfold tolist.
  repeat constructor; assumption.
Qed.

Lemma Forall2_Qeq_trans (a b c : list Q) :
  Forall2 Qeq a b -> Forall2 Qeq b c -> Forall2 Qeq a c.
Proof.
  intro H. revert c.
  induction H as [|x y xs ys Hxy _ IH]; intros c Hc;
    inversion Hc; subst; constructor.
  - etransitivity; eassumption.
  - apply IH. assumption.
Qed.

Lemma tick_hold (now : Q) (s : state) :
  now < hold_until s -> tick now s = (tolist (current s), s).
Proof. intro H. unfold tick. apply Qltb_lt in H. rewrite H. reflexivity. Qed.

Lemma tick_decay (now : Q) (s : state) :
  hold_until s <= now ->
  tick now s =
  (tolist (vadd (current s) (vscale (vsub (baseline s) (current s)) DECAY_RATE)),
   {| baseline := baseline s;
      current := vadd (current s)
                      (vscale (vsub (baseline s) (current s)) DECAY_RATE);
      hold_until := hold_until s;
      last_baseline_update := last_baseline_update s;
      dwell_until := dwell_until s |}).
Proof. intro H. unfold tick. apply Qltb_ge in H. rewrite H. reflexivity. Qed.

(** A tick of a blender whose [current] equals its [baseline] returns
    that value and changes nothing, whatever the clock reads. *)
Lemma tick_at_rest (now : Q) (s : state) :
  current s =v= baseline s ->
  Forall2 Qeq (fst (tick now s)) (tolist (current s)) /\
  state_eq (snd (tick now s)) s.
Proof.
  intro H. unfold tick. destruct (Qltb now (hold_until s)); simpl.
  - split; [apply tolist_veq|]; reflexivity.
  - assert (K : vadd (current s)
                     (vscale (vsub (baseline s) (current s)) DECAY_RATE)
                =v= current s).
    { destruct H as (H1 & H2 & H3 & H4 & H5).
      unfold DECAY_RATE. vec_unfold. repeat split; lra. }
    split; [apply tolist_veq; exact K|].
    unfold state_eq; simpl. repeat split; try reflexivity; apply K.
Qed.

Lemma ticks_at_rest (nows : list Q) : forall s : state,
  current s =v= baseline s ->
  Forall (fun out => Forall2 Qeq out (tolist (current s))) (fst (ticks nows s)) /\
  state_eq (snd (ticks nows s)) s.
Proof.
  induction nows as [|now rest IH]; intros s H; simpl.
  - split; [constructor | reflexivity].
  - destruct (tick_at_rest now s H) as [Hout Hst].
    destruct (tick now s) as [out s1]; simpl in *.
    assert (H1 : current s1 =v= baseline s1).
    { destruct Hst as (Hb & Hc & _). rewrite Hc, Hb. exact H. }
    destruct (IH s1 H1) as [Houts Hst'].
    destruct (ticks rest s1) as [outs s2]; simpl in *.
    split.
    + constructor; [exact Hout|].
      eapply Forall_impl; [|exact Houts].
      intros o Ho. simpl in Ho.
      assert (Hc : Forall2 Qeq (tolist (current s1)) (tolist (current s))).
      { apply tolist_veq. apply Hst. }
      eapply Forall2_Qeq_trans; eassumption.
    + etransitivity; eassumption.
Qed.

(** C10.  A new blender has [baseline] and [current] both equal to
    (0.5, 0.5, 0.5, 0.5, 0.8), with [hold_until] and [dwell_until] 0.0; it
    is settled, and any number of ticks before the first burst, at any
    clock values, each return (0.5, 0.5, 0.5, 0.5, 0.8) and leave the state
    as it was. *)
Theorem blender_starts_at_rest (now0 : Q) :
  baseline (init now0) = Vibe.mk 0.5 0.5 0.5 0.5 0.8 /\
  current (init now0) = Vibe.mk 0.5 0.5 0.5 0.5 0.8 /\
  hold_until (init now0) = 0.0 /\
  dwell_until (init now0) = 0.0 /\
  Server._has_settled_to_baseline (init now0) 0.02 = true /\
  forall nows : list Q,
    Forall (fun out => Forall2 Qeq out [0.5; 0.5; 0.5; 0.5; 0.8])
           (fst (ticks nows (init now0))) /\
    state_eq (snd (ticks nows (init now0))) (init now0).
Proof.
  do 5 (split; [reflexivity|]).
  intro nows. apply (ticks_at_rest nows (init now0)). reflexivity.
Qed.

(** *** Bursts *)

(** The effect of a burst in exact arithmetic. *)
Lemma apply_burst_exact (now : Q) (v : vibe) (influence : option Q)
    (s : state) :
  let alpha := match influence with Some a => a | None => 0.22 end in
  current (apply_burst now v influence s) = v /\
  (forall i, (i < 5)%nat ->
     at_index (baseline (apply_burst now v influence s)) i ==
     clip 0 1 (at_index (baseline s) i
               + alpha * (at_index v i - at_index (baseline s) i))) /\
  (in_unit v ->
     current (apply_burst now v (Some 1.0) s) = v /\
     baseline (apply_burst now v (Some 1.0) s) =v= v) /\
  (baseline s =v= Vibe.mk 0.5 0.5 0.5 0.5 0.5 ->
     baseline (apply_burst now (Vibe.mk 0.9 0.8 0.2 0.5 0.8) None s)
     =v= Vibe.mk 0.588 0.566 0.434 0.5 0.566).
Proof.
  intro alpha. split; [reflexivity|]. split; [|split].
  - apply forall_index. subst alpha. unfold apply_burst, DEFAULT_INFLUENCE.
    destruct influence as [a|]; vec_unfold;
      repeat split; apply clip_proper; try reflexivity; lra.
  - intros (H1 & H2 & H3 & H4 & H5). split; [reflexivity|].
    unfold apply_burst. vec_unfold.
    repeat split;
      (etransitivity; [|apply clip_inside; eassumption]);
      apply clip_proper; try reflexivity; lra.
  - intros (H1 & H2 & H3 & H4 & H5).
    unfold apply_burst, DEFAULT_INFLUENCE. vec_unfold.
    repeat split;
      (etransitivity;
       [apply clip_proper; [reflexivity | reflexivity |]
       | apply clip_inside]);
      first [ rewrite H1 | rewrite H2 | rewrite H3 | rewrite H4 | rewrite H5
            | idtac ]; try reflexivity; try lra.
Qed.

(** C2, as the code has it.  In binary64, [apply_burst(v, influence)]
    sets [current] to exactly [v] and [baseline] to
    clip(baseline + (v - baseline)*alpha, 0, 1), alpha being the influence
    given or 0.22, every operation rounded; from baseline
    (0.5, 0.5, 0.5, 0.5, 0.5) the burst (0.9, 0.8, 0.2, 0.5, 0.8) with the
    default influence gives exactly
    (0.588, 0.5660000000000001, 0.434, 0.5, 0.5660000000000001).  In exact
    arithmetic the same formula gives, with influence 1.0 and [v] inside
    [0,1]^5, the baseline [v], and in the scenario
    (0.588, 0.566, 0.434, 0.5, 0.566). *)
Theorem apply_burst_effect :
  (forall (now : float) (v : Blender64.fvibe) (influence : option float)
          (s : Blender64.state),
     Blender64.current (Blender64.apply_burst now v influence s) = v /\
     Blender64.baseline (Blender64.apply_burst now v influence s) =
     Blender64.fvclip 0%float 1%float
       (Blender64.fadd (Blender64.baseline s)
          (Blender64.fscale (Blender64.fsub v (Blender64.baseline s))
             (match influence with Some a => a | None => 0.22%float end)))) /\
  (forall (now : float) (s : Blender64.state),
     Blender64.baseline s = Blender64.fmk 0.5 0.5 0.5 0.5 0.5 ->
     Blender64.baseline
       (Blender64.apply_burst now (Blender64.fmk 0.9 0.8 0.2 0.5 0.8) None s)
     = Blender64.fmk 0.588 0.5660000000000001 0.434 0.5 0.5660000000000001) /\
  (forall (now : Q) (v : vibe) (influence : option Q) (s : state),
     current (apply_burst now v influence s) = v /\
     forall i, (i < 5)%nat ->
       at_index (baseline (apply_burst now v influence s)) i ==
       clip 0 1 (at_index (baseline s) i
                 + (match influence with Some a => a | None => 0.22 end)
                   * (at_index v i - at_index (baseline s) i))) /\
  (forall (now : Q) (v : vibe) (s : state),
     in_unit v -> baseline (apply_burst now v (Some 1.0) s) =v= v) /\
  (forall (now : Q) (s : state),
     baseline s =v= Vibe.mk 0.5 0.5 0.5 0.5 0.5 ->
     baseline (apply_burst now (Vibe.mk 0.9 0.8 0.2 0.5 0.8) None s)
     =v= Vibe.mk 0.588 0.566 0.434 0.5 0.566).
Proof.
  split; [|split; [|split; [|split]]].
  - intros now v influence s. split; reflexivity.
  - intros now s H. unfold Blender64.apply_burst. simpl. rewrite H.
    vm_compute. reflexivity.
  - intros now v influence s.
    destruct (apply_burst_exact now v influence s) as (H1 & H2 & _).
    split; [exact H1 | exact H2].
  - intros now v s Hv.
    destruct (apply_burst_exact now v None s) as (_ & _ & H & _).
    apply H. exact Hv.
  - intros now s Hb.
    destruct (apply_burst_exact now (Vibe.mk 0.5 0.5 0.5 0.5 0.5) None s)
      as (_ & _ & _ & H).
    apply H. exact Hb.
Qed.

Lemma apply_burst_effect_witness :
  Blender64.baseline
    (Blender64.apply_burst 20 (Blender64.fmk 0.9 0.8 0.2 0.5 0.8) None
       (Blender64.apply_burst 10 (Blender64.fmk 0.5 0.5 0.5 0.5 0.5)
                              (Some 1%float) (Blender64.init 0)))
  = Blender64.fmk 0.588 0.5660000000000001 0.434 0.5 0.5660000000000001 /\
  baseline (apply_burst 10 (Vibe.mk 0.9 0.8 0.2 0.5 0.8) (Some 1.0) (init 0))
  =v= Vibe.mk 0.9 0.8 0.2 0.5 0.8.
Proof.
  destruct apply_burst_effect as (_ & Hscenario & _ & Hfull & _).
  split.
  - apply Hscenario. vm_compute. reflexivity.
  - apply Hfull. unfold in_unit, vall; simpl. repeat split; lra.
Defined.

(** C2 as stated fails: with influence 1.0 the baseline is not [v]
    exactly.  In binary64 the burst (0.1, ..., 0.1) on a new blender leaves
    the baseline one unit in the last place below 0.1 in the first four
    dimensions, and the 0.22 scenario gives 0.5660000000000001 where 0.566 is
    claimed; and a component outside [0,1] is clipped, whatever the
    arithmetic. *)
Lemma full_influence_burst_is_not_exact :
  (let s := Blender64.apply_burst 10 (Blender64.fmk 0.1 0.1 0.1 0.1 0.1)
                                  (Some 1%float) (Blender64.init 0) in
   Blender64.current s = Blender64.fmk 0.1 0.1 0.1 0.1 0.1 /\
   Blender64.fvalence (Blender64.baseline s) = 0.09999999999999998%float /\
   PrimFloat.eqb (Blender64.fvalence (Blender64.baseline s)) 0.1 = false) /\
  (let s := Blender64.apply_burst 20 (Blender64.fmk 0.9 0.8 0.2 0.5 0.8) None
              (Blender64.apply_burst 10 (Blender64.fmk 0.5 0.5 0.5 0.5 0.5)
                                     (Some 1%float) (Blender64.init 0)) in
   Blender64.farousal (Blender64.baseline s) = 0.5660000000000001%float /\
   PrimFloat.eqb (Blender64.farousal (Blender64.baseline s)) 0.566 = false) /\
  (let v := Vibe.mk 1.2 0.5 0.5 0.5 0.8 in
   current (apply_burst 10 v (Some 1.0) (init 0)) = v /\
   valence (baseline (apply_burst 10 v (Some 1.0) (init 0))) == 1 /\
   ~ baseline (apply_burst 10 v (Some 1.0) (init 0)) =v= v).
Proof.
  split; [|split].
  - vm_compute. repeat split.
  - vm_compute. repeat split.
  - split; [reflexivity|]. split; [reflexivity|].
    intros [H _]. vm_compute in H. discriminate H.
Qed.

(** *** The plateau *)

Lemma ticks_hold (nows : list Q) (s : state) :
  Forall (fun now => now < hold_until s) nows ->
  ticks nows s = (repeat (tolist (current s)) (List.length nows), s).
Proof.
  induction 1 as [|now rest Hnow _ IH]; simpl; [reflexivity|].
  rewrite (tick_hold now s Hnow), IH. reflexivity.
Qed.

(** C3.  A tick at a clock value before [hold_until] returns [current]
    and leaves the whole state as it is; so every tick between a burst and
    the [hold_until] it set (the burst's clock value plus 1.2 plus 0.8)
    returns the burst vector, and the state stays the one the burst left. *)
Theorem tick_before_hold_until :
  (forall (now : Q) (s : state),
     now < hold_until s -> tick now s = (tolist (current s), s)) /\
  (forall (now0 : Q) (v : vibe) (influence : option Q) (s : state)
          (nows : list Q),
     let burst := apply_burst now0 v influence s in
     hold_until burst = now0 + 1.2 + 0.8 /\
     (Forall (fun now => now < hold_until burst) nows ->
      ticks nows burst = (repeat (tolist v) (List.length nows), burst) /\
      current (snd (ticks nows burst)) = v)).
Proof.
  split; [exact tick_hold|].
  intros now0 v influence s nows burst. split; [reflexivity|].
  intro H. rewrite (ticks_hold nows burst H). split; reflexivity.
Qed.

Lemma tick_before_hold_until_witness :
  ticks [10.5; 11; 11.9] (apply_burst 10 (Vibe.mk 0.9 0.8 0.2 0.5 0.8) None (init 0))
  = (repeat [0.9; 0.8; 0.2; 0.5; 0.8] 3,
     apply_burst 10 (Vibe.mk 0.9 0.8 0.2 0.5 0.8) None (init 0)).
Proof.
  apply (proj2 tick_before_hold_until 10 (Vibe.mk 0.9 0.8 0.2 0.5 0.8) None
               (init 0) [10.5; 11; 11.9]).
  repeat constructor.
Defined.

(** *** Decay *)

Lemma Qpower_succ (q : Q) (n : nat) :
  ~ q == 0 -> q ^ Z.of_nat (S n) == q * q ^ Z.of_nat n.
Proof.
  intro Hq. rewrite Nat2Z.inj_succ. unfold Z.succ.
  rewrite Qpower_plus by exact Hq.
  rewrite Qmult_comm. reflexivity.
Qed.

(** One decaying tick, component by component. *)
Lemma tick_decay_index (now : Q) (s : state) (i : nat) :
  hold_until s <= now -> (i < 5)%nat ->
  at_index (current (snd (tick now s))) i ==
  at_index (current s) i
  + 0.06 * (at_index (baseline s) i - at_index (current s) i).
Proof.
  intros H Hi. rewrite (tick_decay now s H). simpl. revert i Hi.
  apply forall_index. unfold DECAY_RATE. vec_unfold. repeat split; lra.
Qed.

Lemma ticks_cons_snd (now : Q) (rest : list Q) (s : state) :
  snd (ticks (now :: rest) s) = snd (ticks rest (snd (tick now s))).
Proof.
  simpl. destruct (tick now s) as [out s1]. simpl.
  destruct (ticks rest s1) as [outs s2]. reflexivity.
Qed.

(** [n] decaying ticks shrink every gap to the baseline by 0.94^n. *)
Lemma ticks_decay_gap (nows : list Q) : forall s : state,
  Forall (fun now => hold_until s <= now) nows ->
  baseline (snd (ticks nows s)) = baseline s /\
  forall i, (i < 5)%nat ->
    at_index (baseline s) i - at_index (current (snd (ticks nows s))) i ==
    0.94 ^ Z.of_nat (List.length nows)
    * (at_index (baseline s) i - at_index (current s) i).
Proof.
  induction nows as [|now rest IH]; intros s H.
  - simpl. split; [reflexivity|]. intros i _. lra.
  - inversion H as [|? ? Hnow Hrest]; subst.
    pose proof (tick_decay_index now s) as Hstep.
    assert (Hb : baseline (snd (tick now s)) = baseline s)
      by (rewrite (tick_decay now s Hnow); reflexivity).
    assert (Hh : hold_until (snd (tick now s)) = hold_until s)
      by (rewrite (tick_decay now s Hnow); reflexivity).
    rewrite ticks_cons_snd.
    destruct (IH (snd (tick now s))) as [IHb IHc]; [rewrite Hh; exact Hrest|].
    split; [congruence|].
    intros i Hi. specialize (IHc i Hi). specialize (Hstep i Hnow Hi).
    rewrite Hb in IHc.
    replace (List.length (now :: rest)) with (S (List.length rest))
      by reflexivity.
    rewrite Qpower_succ by (intro K; vm_compute in K; discriminate K).
    assert (E : at_index (baseline s) i
                - at_index (current (snd (tick now s))) i ==
                0.94 * (at_index (baseline s) i - at_index (current s) i))
      by lra.
    rewrite IHc, E. ring.
Qed.

(** After any number of decaying ticks every component lies between
    where it started and the baseline. *)
Lemma ticks_decay_between (nows : list Q) (s : state) (i : nat) :
  Forall (fun now => hold_until s <= now) nows -> (i < 5)%nat ->
  let c := at_index (current s) i in
  let b := at_index (baseline s) i in
  let cn := at_index (current (snd (ticks nows s))) i in
  (c <= b -> c <= cn <= b) /\ (b <= c -> b <= cn <= c).
Proof.
  intros Hn Hi c b cn.
  destruct (ticks_decay_gap nows s Hn) as [_ Hgap].
  specialize (Hgap i Hi). fold b c cn in Hgap.
  set (p := 0.94 ^ Z.of_nat (List.length nows)) in *.
  assert (Hp0 : 0 <= p) by (apply Qpower_0_le; lra).
  assert (Hp1 : p <= 1).
  { assert (E : 1 == 0.94 ^ Z.of_nat 0) by reflexivity.
    rewrite E. subst p.
    generalize (List.length nows). intro n. induction n as [|n IH].
    - apply Qle_refl.
    - rewrite Qpower_succ by (intro K; vm_compute in K; discriminate K).
      assert (0 <= 0.94 ^ Z.of_nat n) by (apply Qpower_0_le; lra).
      simpl in IH |- *. nra. }
  split; intro Hle; nra.
Qed.

(** C4, as the code has it.  After [hold_until], a tick keeps the
    baseline and replaces every component c of [current] by
    c + 0.06*(b - c), b being the baseline's component.  In exact
    arithmetic the new value lies between c and b (never past b), the gap
    to b does not grow, the value is unchanged when c = b, and after any
    number of ticks the value still lies between the start and b; from 0.9
    toward 0.5 one tick gives 0.876, in binary64 as well.  In binary64 a
    tick can also leave the value unchanged without c = b: at
    c = 0.5000000000000009, b = 0.5 the rounded sum is c again. *)
Theorem tick_decays_toward_baseline :
  (forall (now : Q) (s : state),
     hold_until s <= now ->
     fst (tick now s) = tolist (current (snd (tick now s))) /\
     baseline (snd (tick now s)) = baseline s /\
     forall i, (i < 5)%nat ->
       let c := at_index (current s) i in
       let b := at_index (baseline s) i in
       let c' := at_index (current (snd (tick now s))) i in
       c' == c + 0.06 * (b - c) /\
       (c <= b -> c <= c' <= b) /\
       (b <= c -> b <= c' <= c) /\
       Qabs (b - c') <= Qabs (b - c) /\
       (c == b -> c' == c) /\
       (c == 0.9 -> b == 0.5 -> c' == 0.876)) /\
  (forall (nows : list Q) (s : state) (i : nat),
     Forall (fun now => hold_until s <= now) nows -> (i < 5)%nat ->
     let c := at_index (current s) i in
     let b := at_index (baseline s) i in
     let cn := at_index (current (snd (ticks nows s))) i in
     (c <= b -> c <= cn <= b) /\ (b <= c -> b <= cn <= c)) /\
  (forall (now : float) (s : Blender64.state),
     PrimFloat.ltb now (Blender64.hold_until s) = false ->
     Blender64.baseline (snd (Blender64.tick now s)) = Blender64.baseline s /\
     Blender64.current (snd (Blender64.tick now s)) =
     Blender64.fadd (Blender64.current s)
       (Blender64.fscale
          (Blender64.fsub (Blender64.baseline s) (Blender64.current s))
          0.06%float) /\
     fst (Blender64.tick now s) =
     Blender64.ftolist (Blender64.current (snd (Blender64.tick now s)))) /\
  (forall (now : float) (s : Blender64.state),
     PrimFloat.ltb now (Blender64.hold_until s) = false ->
     Blender64.fvalence (Blender64.baseline s) = 0.5%float ->
     (Blender64.fvalence (Blender64.current s) = 0.9%float ->
      Blender64.fvalence (Blender64.current (snd (Blender64.tick now s)))
      = 0.876%float) /\
     (Blender64.fvalence (Blender64.current s) = 0.5000000000000009%float ->
      Blender64.fvalence (Blender64.current (snd (Blender64.tick now s)))
      = 0.5000000000000009%float)).
Proof.
  split; [|split; [|split]].
  - intros now s H.
    split; [rewrite (tick_decay now s H); reflexivity|].
    split; [rewrite (tick_decay now s H); reflexivity|].
    intros i Hi c b c'.
    pose proof (tick_decay_index now s i H Hi) as E. fold c b c' in E.
    split; [exact E|].
    split; [intro; lra|]. split; [intro; lra|].
    split; [|split; intros; lra].
    assert (G : b - c' == 0.94 * (b - c)) by lra.
    rewrite G, Qabs_Qmult.
    pose proof (Qabs_nonneg (b - c)) as Hn.
    assert (Ha : Qabs 0.94 == 0.94) by (apply Qabs_pos; lra).
    rewrite Ha. lra.
  - intros nows s i Hn Hi. apply ticks_decay_between; assumption.
  - intros now s H. unfold Blender64.tick. rewrite H. simpl.
    repeat split.
  - intros now s H Hb. unfold Blender64.tick. rewrite H. simpl.
    rewrite Hb. split; intros ->; vm_compute; reflexivity.
Qed.

Lemma tick_decays_toward_baseline_witness :
  Blender64.fvalence
    (Blender64.current
       (snd (Blender64.tick 12
               (Blender64.apply_burst 10 (Blender64.fmk 0.9 0.9 0.9 0.9 0.9)
                                      (Some 0%float) (Blender64.init 0)))))
  = 0.876%float.
Proof.
  destruct tick_decays_toward_baseline as (_ & _ & _ & H).
  apply H; vm_compute; reflexivity.
Defined.

(** C4 as stated fails in binary64: decaying from 0.9 toward the baseline
    0.5, the value stops changing a few units in the last place above
    0.5; every further tick returns the same list although [current]
    differs from [baseline]. *)
Lemma decay_stalls_before_baseline :
  let s := Blender64.ticks 600 10
             (Blender64.apply_burst 0 (Blender64.fmk 0.9 0.9 0.9 0.9 0.9)
                                    (Some 0%float) (Blender64.init 0)) in
  PrimFloat.ltb 10 (Blender64.hold_until s) = false /\
  Blender64.fvalence (Blender64.baseline s) = 0.5%float /\
  Blender64.fvalence (Blender64.current s) = 0.5000000000000009%float /\
  fst (Blender64.tick 10 s) = Blender64.ftolist (Blender64.current s) /\
  fst (Blender64.tick 10 (snd (Blender64.tick 10 s))) = fst (Blender64.tick 10 s) /\
  PrimFloat.eqb (Blender64.fvalence (Blender64.current s))
                (Blender64.fvalence (Blender64.baseline s)) = false.
Proof. vm_compute. repeat split. Qed.

(** *** The range of the state *)

Lemma tick_current_in_unit (now : Q) (s : state) :
  in_unit (baseline s) -> in_unit (current s) ->
  in_unit (current (snd (tick now s))).
Proof.
  intros Hb Hc. unfold tick. destruct (Qltb now (hold_until s)); simpl.
  - exact Hc.
  - destruct Hb as (B1 & B2 & B3 & B4 & B5).
    destruct Hc as (C1 & C2 & C3 & C4 & C5).
    unfold DECAY_RATE. vec_unfold. repeat split; lra.
Qed.

Lemma tick_baseline (now : Q) (s : state) :
  baseline (snd (tick now s)) = baseline s.
Proof. unfold tick. destruct (Qltb now (hold_until s)); reflexivity. Qed.

Lemma step_range (s : state) (c : call) :
  in_unit (baseline s) ->
  in_unit (baseline (step s c)) /\
  (in_unit (current s) -> clamped_argument c -> in_unit (current (step s c))).
Proof.
  intro Hb. destruct c as [now v infl | now now' v | now]; simpl.
  - split; [apply vclip_in_unit | intros _ H; exact H].
  - split; [apply vclip_in_unit | intros _ H; exact H].
  - rewrite tick_baseline. split; [exact Hb|].
    intros Hc _. apply tick_current_in_unit; assumption.
Qed.

Lemma run_range (cs : list call) : forall s : state,
  in_unit (baseline s) ->
  in_unit (baseline (run cs s)) /\
  (in_unit (current s) -> Forall clamped_argument cs ->
   in_unit (current (run cs s))).
Proof.
  induction cs as [|c cs IH]; intros s Hb; simpl.
  - split; [exact Hb | intros Hc _; exact Hc].
  - destruct (step_range s c Hb) as [Hb' Hc'].
    destruct (IH (step s c) Hb') as [IHb IHc].
    split; [exact IHb|].
    intros Hc Hall. inversion Hall; subst.
    apply IHc; [apply Hc'|]; assumption.
Qed.

(** C1, as the code has it.  In every state reached from a new blender by
    bursts, baseline corrections and ticks with any arguments, [baseline]
    is within [0,1] in every component (it is clipped on every write);
    [current] is within [0,1] in every component when every vector handed
    to [apply_burst] and [apply_baseline] is (a burst is stored in
    [current] as it comes). *)
Theorem blender_range_invariant (now0 : Q) (cs : list call) :
  in_unit (baseline (run cs (init now0))) /\
  (Forall clamped_argument cs -> in_unit (current (run cs (init now0)))).
Proof.
  assert (H0 : in_unit (Vibe.mk 0.5 0.5 0.5 0.5 0.8))
    by (unfold in_unit, vall; simpl; repeat split; lra).
  destruct (run_range cs (init now0) H0) as [Hb Hc].
  split; [exact Hb | intro H; apply Hc; [exact H0 | exact H]].
Qed.

Lemma blender_range_invariant_witness :
  in_unit (current (run [Burst 10 (Vibe.mk 0.9 0.8 0.2 0.5 0.8) None;
                         Tick 10.1; Tick 12.5;
                         Baseline 13 13.1 (Vibe.mk 0.4 0.4 0.5 0.5 0.7);
                         Tick 16]
                        (init 0))).
Proof.
  apply (blender_range_invariant 0).
  repeat constructor; unfold clamped_argument; simpl;
    try exact I; vm_compute; intuition discriminate.
Defined.

(** C1 as stated fails: a burst outside [0,1]^5 is the new [current]. *)
Lemma burst_out_of_range_is_current :
  current (run [Burst 10 (Vibe.mk 1.5 0.5 0.5 0.5 0.8) (Some 0.22)] (init 0))
  = Vibe.mk 1.5 0.5 0.5 0.5 0.8 /\
  ~ in_unit (current (run [Burst 10 (Vibe.mk 1.5 0.5 0.5 0.5 0.8) (Some 0.22)]
                          (init 0))).
Proof.
  split; [reflexivity|].
  intros [[_ H] _]. vm_compute in H. apply H. reflexivity.
Qed.

(** ** Settle detection *)

Lemma vallb_spec (p : Q -> bool) (v : vibe) :
  vallb p v = true <-> forall i, (i < 5)%nat -> p (at_index v i) = true.
Proof.
  rewrite forall_index. unfold vallb, at_index. simpl.
  rewrite !andb_true_iff. tauto.
Qed.

Lemma vabs_vsub_index (a b : vibe) (i : nat) :
  (i < 5)%nat ->
  at_index (vabs (vsub a b)) i = Qabs (at_index a i - at_index b i).
Proof.
  revert i. apply forall_index. unfold at_index. simpl.
  repeat split; reflexivity.
Qed.

(** C8.  The state is settled exactly when, in each of the five
    dimensions, |current[i] - baseline[i]| is below 0.02; so all five
    below 0.02 gives settled, and a single dimension at distance 0.021
    gives not settled. *)
Theorem settled_iff_all_within_threshold (b : state) :
  (Server._has_settled_to_baseline b 0.02 = true <->
   forall i, (i < 5)%nat ->
     Qabs (at_index (current b) i - at_index (baseline b) i) < 0.02) /\
  (forall i, (i < 5)%nat ->
     Qabs (at_index (current b) i - at_index (baseline b) i) == 0.021 ->
     Server._has_settled_to_baseline b 0.02 = false).
Proof.
  assert (E : Server._has_settled_to_baseline b 0.02 = true <->
              forall i, (i < 5)%nat ->
                Qabs (at_index (current b) i - at_index (baseline b) i) < 0.02).
  { unfold Server._has_settled_to_baseline. rewrite vallb_spec.
    split; intros H i Hi; specialize (H i Hi);
      rewrite vabs_vsub_index in * by exact Hi; apply Qltb_lt; exact H. }
  split; [exact E|].
  intros i Hi Hd.
  destruct (Server._has_settled_to_baseline b 0.02) eqn:S; [|reflexivity].
  pose proof (proj1 E eq_refl i Hi) as K. lra.
Qed.

Lemma settled_iff_all_within_threshold_witness :
  Server._has_settled_to_baseline
    (apply_burst 10 (Vibe.mk 0.5 0.5 0.521 0.5 0.8) (Some 0) (init 0)) 0.02
  = false.
Proof.
  apply (proj2 (settled_iff_all_within_threshold
                  (apply_burst 10 (Vibe.mk 0.5 0.5 0.521 0.5 0.8) (Some 0)
                               (init 0)))
               2%nat).
  - lia.
  - reflexivity.
Defined.

(** ** The amplifier *)

Import Amplifier.

(** The loop of [_radial_amplify], unrolled. *)
Lemma _radial_amplify_unfold (v : vibe) (p : Q) :
  _radial_amplify v p =
  Vibe.mk (0.5 + (valence v - 0.5) * (1 + p * Qabs (valence v - 0.5)))
          (0.5 + (arousal v - 0.5) * (1 + p * Qabs (arousal v - 0.5)))
          (0.5 + (dominance v - 0.5) * (1 + p * Qabs (dominance v - 0.5)))
          (complexity v) (coherence v).
Proof. reflexivity. Qed.

Lemma passion_clamp (p : Q) : 0 <= p -> Qmax 0.0 (Qmin MAX_PASSION p) == Qmin p 3.5.
Proof.
  intro H. unfold MAX_PASSION.
  rewrite Q.max_r; [apply Q.min_comm|].
  apply Q.min_glb; lra.
Qed.

(** C6, as the code has it.  For passion p >= 0 the result of
    [amplify_passion] lies in [0,1]^5; each of the first three dimensions
    is clip(0.5 + delta*(1 + p'*|delta|), 0, 1) with delta = v[i] - 0.5 and
    p' = min(p, 3.5), and stays 0.5 when v[i] is 0.5; dimensions 3 and 4
    are clip(v[i], 0, 1), hence equal to the input when it lies in
    [0,1]. *)
Theorem amplify_passion_effect (v : vibe) (p : Q) :
  0 <= p ->
  let r := amplify_passion v p in
  let p' := Qmin p 3.5 in
  in_unit r /\
  (forall i, (i < 3)%nat ->
     let delta := at_index v i - 0.5 in
     at_index r i == clip 0 1 (0.5 + delta * (1 + p' * Qabs delta))) /\
  (forall i, (i < 3)%nat -> at_index v i == 0.5 -> at_index r i == 0.5) /\
  (forall i, (3 <= i < 5)%nat -> at_index r i == clip 0 1 (at_index v i)) /\
  (forall i, (3 <= i < 5)%nat -> 0 <= at_index v i <= 1 ->
     at_index r i == at_index v i).
Proof.
  intros Hp r p'.
  assert (Hc : Qmax 0.0 (Qmin MAX_PASSION p) == p') by (apply passion_clamp; exact Hp).
  assert (Hvad : forall i, (i < 3)%nat ->
            at_index r i ==
            clip 0 1 (0.5 + (at_index v i - 0.5)
                            * (1 + p' * Qabs (at_index v i - 0.5)))).
  { intros i Hi. subst r. unfold amplify_passion.
    rewrite _radial_amplify_unfold.
    destruct i as [|[|[|i]]]; try lia; unfold at_index; simpl;
      apply clip_proper; try reflexivity; rewrite Hc; reflexivity. }
  assert (Hcc : forall i, (3 <= i < 5)%nat ->
            at_index r i == clip 0 1 (at_index v i)).
  { intros i Hi. subst r. unfold amplify_passion.
    rewrite _radial_amplify_unfold.
    destruct i as [|[|[|[|[|i]]]]]; try lia; unfold at_index; simpl;
      apply clip_proper; reflexivity. }
  split.
  { subst r. unfold amplify_passion, in_unit, vall, vclip, vmap; simpl.
    repeat split;
      match goal with
      | |- context [clip ?lo ?hi ?x] =>
          pose proof (clip_bounds lo hi x ltac:(lra))
      end; lra. }
  split; [exact Hvad|].
  split; [|split; [exact Hcc|]].
  - intros i Hi Hv. rewrite (Hvad i Hi).
    assert (D : at_index v i - 0.5 == 0) by lra.
    rewrite D.
    transitivity (clip 0 1 0.5); [|reflexivity].
    apply clip_proper; try reflexivity. lra.
  - intros i Hi Hv. rewrite (Hcc i Hi). apply clip_inside. exact Hv.
Qed.

Lemma amplify_passion_effect_witness :
  at_index (amplify_passion (Vibe.mk 0.42 0.65 0.55 0.6 0.7) 2.0) 3 == 0.6.
Proof.
  apply (amplify_passion_effect (Vibe.mk 0.42 0.65 0.55 0.6 0.7) 2.0).
  - vm_compute. discriminate.
  - lia.
  - vm_compute. split; discriminate.
Defined.

(** C6 as stated fails when Complexity or Coherence is outside [0,1]:
    the final clip changes it. *)
Lemma amplify_passion_clips_complexity :
  at_index (amplify_passion (Vibe.mk 0.5 0.5 0.5 1.2 0.5) 1.0) 3 == 1 /\
  ~ at_index (amplify_passion (Vibe.mk 0.5 0.5 0.5 1.2 0.5) 1.0) 3
    == at_index (Vibe.mk 0.5 0.5 0.5 1.2 0.5) 3.
Proof.
  split; [reflexivity|]. intro H. vm_compute in H. discriminate H.
Qed.

(** *** [argsort]: a permutation of the indices, in increasing order of
    value *)

Lemma insert_index_perm (ds : list Q) (i : nat) (l : list nat) :
  Permutation (insert_index ds i l) (i :: l).
Proof.
  induction l as [|j rest IH]; simpl; [constructor; constructor|].
  destruct (Qle_bool (nth i ds 0) (nth j ds 0)); [reflexivity|].
  rewrite IH. apply perm_swap.
Qed.

Lemma insert_index_sorted (ds : list Q) (i : nat) (l : list nat) :
  StronglySorted (key_le ds) l ->
  StronglySorted (key_le ds) (insert_index ds i l).
Proof.
  induction 1 as [|j rest Hs IH Hj]; simpl.
  - constructor; constructor.
  - destruct (Qle_bool (nth i ds 0) (nth j ds 0)) eqn:E.
    + apply Qle_bool_iff in E. constructor.
      * constructor; assumption.
      * constructor; [exact E|].
        eapply Forall_impl; [|exact Hj].
        intros a Ha. unfold key_le in *. lra.
    + assert (Hji : key_le ds j i).
      { unfold key_le. apply Qlt_le_weak, Qnot_le_lt. intro K.
        apply Qle_bool_iff in K. congruence. }
      constructor; [exact IH|].
      eapply Permutation_Forall.
      * symmetry. apply insert_index_perm.
      * constructor; assumption.
Qed.

Lemma argsort_perm (ds : list Q) :
  Permutation (argsort ds) (seq 0 (List.length ds)).
Proof.
  unfold argsort. induction (seq 0 (List.length ds)) as [|i l IH]; simpl.
  - constructor.
  - rewrite insert_index_perm. constructor. exact IH.
Qed.

Lemma argsort_sorted (ds : list Q) : StronglySorted (key_le ds) (argsort ds).
Proof.
  unfold argsort. induction (seq 0 (List.length ds)) as [|i l IH]; simpl.
  - constructor.
  - apply insert_index_sorted. exact IH.
Qed.

Lemma argsort_in_range (ds : list Q) (i : nat) :
  In i (argsort ds) -> (i < List.length ds)%nat.
Proof.
  intro H. apply (Permutation_in _ (argsort_perm ds)) in H.
  apply in_seq in H. lia.
Qed.

Lemma argsort_length (ds : list Q) :
  List.length (argsort ds) = List.length ds.
Proof.
  rewrite (Permutation_length (argsort_perm ds)). apply length_seq.
Qed.



(** *** Sums and weights *)








(** *** The nearest exemplars *)



Lemma Qeq_bool_false (x y : Q) : ~ x == y -> Qeq_bool x y = false.
Proof.
  intro H. destruct (Qeq_bool x y) eqn:E; [|reflexivity].
  apply Qeq_bool_iff in E. contradiction.
Qed.

Section NearestExemplar.

Variable sqrt : Q -> Q.
Variable cinematic_space : list vibe.
Hypothesis sqrt_nonneg : forall x, 0 <= sqrt x.
Hypothesis library_nonempty : cinematic_space <> [].


Lemma distances_length (v : vibe) :
  List.length (distances sqrt cinematic_space v) = List.length cinematic_space.
Proof. unfold distances. apply length_map. Qed.



Lemma argsort_distances_nonempty (v : vibe) :
  exists i rest, argsort (distances sqrt cinematic_space v) = i :: rest.
Proof.
  pose proof (argsort_length (distances sqrt cinematic_space v)) as H.
  rewrite distances_length in H.
  destruct (argsort (distances sqrt cinematic_space v)) as [|i rest].
  - destruct cinematic_space; [congruence | discriminate].
  - eauto.
Qed.



End NearestExemplar.





(** On that library the code snaps the neutral vector to the second
    exemplar: its scaled difference 0.3*0.5 = 0.15 is below the first one's
    3.0*0.1 = 0.3.  (With the weights on the squared differences the first
    would be the nearer: 3.0*0.01 < 0.3*0.25.) *)
Lemma snap_drama_scales_differences :
  distance sqrt6 (Vibe.mk 0.5 0.5 0.5 0.5 0.5) (Vibe.mk 0.6 0.5 0.5 0.5 0.5)
    == 0.3 /\
  distance sqrt6 (Vibe.mk 0.5 0.5 0.5 0.5 0.5) (Vibe.mk 0.5 0.5 0.5 1.0 0.5)
    == 0.15 /\
  _nearest_exemplar sqrt6
    [Vibe.mk 0.6 0.5 0.5 0.5 0.5; Vibe.mk 0.5 0.5 0.5 1.0 0.5]
    (Vibe.mk 0.5 0.5 0.5 0.5 0.5) 1
  = Some (Vibe.mk 0.5 0.5 0.5 1.0 0.5) /\
  3.0 * (0.1 * 0.1) < 0.3 * (0.5 * 0.5).
Proof. vm_compute. repeat split; discriminate. Qed.

(** ** The coordinator *)

Import Server.

(** The two outcomes of one iteration of the decay loop. *)
Lemma decay_loop_body_cases (now : Q) (s : server) :
  let b := snd (tick now (blender s)) in
  let context_text :=
    _get_recent_context_text (context_buffer s) BASELINE_WINDOW_WORDS in
  (_slow_pending s = true /\ _slow_in_flight s = false /\
   _has_settled_to_baseline b 0.02 = true /\
   context_text <> EmptyString /\
   decay_loop_body now s =
   set_flags (_slow_pending s) true (slow_tasks s ++ [context_text])
             (set_blender b s))
  \/
  (decay_loop_body now s = set_blender b s).
Proof.
  unfold decay_loop_body. destruct (tick now (blender s)) as [vibe b]. simpl.
  destruct (_slow_pending s); simpl; [|right; reflexivity].
  destruct (_slow_in_flight s); simpl; [right; reflexivity|].
  destruct (_has_settled_to_baseline b 0.02); simpl; [|right; reflexivity].
  destruct (String.eqb_spec
              (_get_recent_context_text (context_buffer s) BASELINE_WINDOW_WORDS)
              EmptyString) as [E|E]; simpl.
  - right. reflexivity.
  - left. repeat split; try reflexivity. exact E.
Qed.

Lemma one_task_decay (now : Q) (s : server) :
  one_task s -> one_task (decay_loop_body now s).
Proof.
  intros [Hlen Hflag].
  destruct (decay_loop_body_cases now s)
    as [(_ & Hf & _ & _ & E) | E]; rewrite E; unfold one_task; simpl.
  - assert (Ht : slow_tasks s = []).
    { destruct (slow_tasks s) as [|t [|t' ts]]; [reflexivity| |simpl in Hlen; lia].
      assert (K : _slow_in_flight s = true) by (apply Hflag; reflexivity).
      congruence. }
    rewrite Ht. simpl. split; [lia | tauto].
  - split; assumption.
Qed.

Lemma one_task_handle (s : server) (e : event) :
  one_task s -> one_task (handle s e).
Proof.
  intros H. destruct e as [now | p | r now now' | r now now']; simpl.
  - apply one_task_decay. exact H.
  - unfold receive_transcript. destruct (words p); [exact H|].
    match goal with |- context [if ?c then _ else _] => destruct c end;
      exact H.
  - unfold _trigger_slow_baseline.
    destruct H as [Hlen Hflag].
    destruct (slow_tasks s) as [|t ts] eqn:Et; [split; rewrite ?Et; assumption|].
    unfold one_task. simpl.
    assert (ts = []) by (destruct ts; [reflexivity | simpl in Hlen; lia]).
    subst ts. simpl. split; [lia|]. split; [discriminate | discriminate].
  - unfold _startup_warm_baseline. destruct (warm_task s); [|exact H].
    unfold one_task. simpl.
    destruct (_update_baseline_async s r); exact H.
Qed.

Lemma one_task_run (es : list event) : forall s : server,
  one_task s -> one_task (Server.run es s).
Proof.
  induction es as [|e es IH]; intros s H; simpl; [exact H|].
  apply IH. apply one_task_handle. exact H.
Qed.

Lemma get_recent_context_text_empty (max_words : nat) :
  _get_recent_context_text [] max_words = EmptyString.
Proof. reflexivity. Qed.

(** C5, as the code has it.  In every state the event loop can reach
    after startup, at most one request made by the decay loop is
    outstanding, and one is outstanding exactly when the in-flight flag is
    set.  An iteration of the decay loop makes a request only when the
    pending flag is set, the in-flight flag is clear, the state after the
    tick is settled and the context buffer is not empty; the same
    iteration sets the in-flight flag and hands over the trailing 100
    words; two iterations in a row never leave two such requests.  The
    warm-up request of startup is made outside the flags: together with
    it at most two requests are outstanding. *)
Theorem single_request_from_decay_loop (now0 : Q) (available : bool)
    (es : list event) :
  let s := Server.run es (startup now0 available) in
  (List.length (slow_tasks s) <= 1)%nat /\
  (_slow_in_flight s = true <-> List.length (slow_tasks s) = 1%nat) /\
  (forall now,
     slow_tasks (decay_loop_body now s) <> slow_tasks s ->
     _slow_pending s = true /\
     _slow_in_flight s = false /\
     _has_settled_to_baseline (snd (tick now (blender s))) 0.02 = true /\
     context_buffer s <> [] /\
     _slow_in_flight (decay_loop_body now s) = true /\
     slow_tasks (decay_loop_body now s) =
     [_get_recent_context_text (context_buffer s) 100]) /\
  (forall now1 now2,
     (List.length (slow_tasks (decay_loop_body now2 (decay_loop_body now1 s)))
      <= 1)%nat) /\
  (outstanding s <= 2)%nat.
Proof.
  intro s.
  assert (H0 : one_task (startup now0 available)).
  { unfold one_task. simpl. split; [lia|]. split; discriminate. }
  pose proof (one_task_run es _ H0) as Hs. fold s in Hs.
  destruct Hs as [Hlen Hflag].
  split; [exact Hlen|]. split; [exact Hflag|]. split; [|split].
  - intros now Hchange.
    destruct (decay_loop_body_cases now s)
      as [(Hp & Hf & Hset & Hctx & E) | E]; rewrite E in *; simpl in *.
    + assert (Ht : slow_tasks s = []).
      { destruct (slow_tasks s) as [|t [|t' ts]]; [reflexivity| |simpl in Hlen; lia].
        assert (K : _slow_in_flight s = true) by (apply Hflag; reflexivity).
        congruence. }
      repeat split; try assumption.
      * intro Hb. rewrite Hb in Hctx. apply Hctx. reflexivity.
      * rewrite Ht. reflexivity.
    + congruence.
  - intros now1 now2.
    apply (one_task_decay now2), (one_task_decay now1). split; assumption.
  - unfold outstanding. destruct (warm_task s); lia.
Qed.

Lemma single_request_from_decay_loop_witness :
  let s := Server.run
             [Transcript (mkPayload ["calm"%string; "words"%string]
                                    (Some 1) [(1, Vibe.mk 0.7 0.6 0.5 0.5 0.8)])]
             (startup 0 true) in
  _slow_pending s = true /\
  _slow_in_flight s = false /\
  _slow_in_flight (decay_loop_body 1.1 s) = true.
Proof.
  intro s.
  destruct (single_request_from_decay_loop 0 true
              [Transcript (mkPayload ["calm"%string; "words"%string]
                                     (Some 1)
                                     [(1, Vibe.mk 0.7 0.6 0.5 0.5 0.8)])])
    as (_ & _ & H & _).
  destruct (H 1.1) as (H1 & H2 & _ & _ & H3 & _).
  - vm_compute. discriminate.
  - split; [exact H1|]. split; [exact H2 | exact H3].
Defined.

(** C5 as stated fails at startup: the warm-up request is still
    outstanding when the decay loop makes its own. *)
Lemma warm_up_overlaps_coordinator_request :
  let s := Server.run
             [Transcript (mkPayload ["calm"%string; "words"%string]
                                    (Some 1) [(1, Vibe.mk 0.7 0.6 0.5 0.5 0.8)]);
              DecayTick 1.1]
             (startup 0 true) in
  warm_task s = true /\
  slow_tasks s = ["calm words"%string] /\
  _slow_in_flight s = true /\
  outstanding s = 2%nat.
Proof. vm_compute. repeat split. Qed.

(** ** The slow path *)

(** *** The tokens of the number pattern *)















(** *** What [extract_baseline] returns *)







(** A value out of range in the reply is not rejected either: the number
    pattern reads "1.5" as the token "1". *)
Lemma out_of_range_value_is_read_as_one :
  Anchor.findall (Anchor.decode "1.5 0.3 0.2 0.4 0.5")
  = map Anchor.decode ["1"; "0.3"; "0.2"; "0.4"; "0.5"]%string /\
  Anchor.extract_baseline true (Some "1.5 0.3 0.2 0.4 0.5"%string)
  = Some (Vibe.mk 1 0.3 0.2 0.4 0.5).
Proof. split; reflexivity. Qed.

(** Decimal digits of other scripts count as digits, as for Python's
    [\d] and [float()]: in the reply 0.[U+0663]0.11 0.2 0.3 (the UTF-8
    bytes 217, 163 are ARABIC-INDIC DIGIT THREE) the tokens are
    0.[U+0663]0, 1, 1, 0.2 and 0.3, read as 0.30, 1, 1, 0.2, 0.3. *)
Lemma digits_of_other_scripts_are_read :
  let raw := ("0." ++ String (ascii_of_nat 217) (String (ascii_of_nat 163)
                "0.11 0.2 0.3"))%string in
  Anchor.findall (Anchor.strip (Anchor.decode raw))
  = [[48; 46; 1635; 48]; [49]; [49]; [48; 46; 50]; [48; 46; 51]]%N /\
  Anchor.extract_baseline true (Some raw)
  = Some (Vibe.mk (30 # 100) (1 # 1) (1 # 1) (2 # 10) (3 # 10)).
Proof. split; reflexivity. Qed.

(* ================================================================== *)
(** * Part III: further properties of the code *)
(* ================================================================== *)

(** Settle detection as a statement about the five gaps. *)
Lemma settled_iff_all_within_threshold_aux (b : state) :
  (forall i, (i < 5)%nat ->
     Qabs (at_index (current b) i - at_index (baseline b) i) < 0.02) <->
  Server._has_settled_to_baseline b 0.02 = true.
Proof.
  unfold Server._has_settled_to_baseline. rewrite vallb_spec.
  split; intros H i Hi; specialize (H i Hi);
    rewrite vabs_vsub_index in * by exact Hi; apply Qltb_lt; exact H.
Qed.

(** ** The blender, continued *)

Lemma Qpower_nat_nonneg (q : Q) (n : nat) : 0 <= q -> 0 <= q ^ Z.of_nat n.
Proof. intro H. apply Qpower_0_le. exact H. Qed.

Lemma Qpower_nat_decreasing (q : Q) (n m : nat) :
  0 < q <= 1 -> (n <= m)%nat -> q ^ Z.of_nat m <= q ^ Z.of_nat n.
Proof.
  intros Hq Hnm. induction Hnm as [|m Hnm IH]; [apply Qle_refl|].
  rewrite Qpower_succ by (intro K; rewrite K in Hq; lra).
  pose proof (Qpower_nat_nonneg q m ltac:(lra)) as Hp. nra.
Qed.

Lemma decay_64_below_threshold : 0.94 ^ 64 < 0.02.
Proof. vm_compute. reflexivity. Qed.

(** X1.  Once [hold_until] has passed, 64 ticks (or more) bring a blender
    whose [current] and [baseline] lie in [0,1]^5 within the settle
    threshold 0.02 of its baseline in every dimension. *)
Theorem settled_after_64_ticks (s : state) (nows : list Q) :
  in_unit (baseline s) -> in_unit (current s) ->
  (64 <= List.length nows)%nat ->
  Forall (fun now => hold_until s <= now) nows ->
  Server._has_settled_to_baseline (snd (ticks nows s)) 0.02 = true.
Proof.
  intros Hb Hc Hlen Hnows.
  destruct (ticks_decay_gap nows s Hnows) as [Eb Hgap].
  apply (proj1 (settled_iff_all_within_threshold_aux (snd (ticks nows s)))).
  intros i Hi. rewrite Eb. specialize (Hgap i Hi).
  assert (Hbi : 0 <= at_index (baseline s) i <= 1)
    by (apply in_unit_index; assumption).
  assert (Hci : 0 <= at_index (current s) i <= 1)
    by (apply in_unit_index; assumption).
  set (p := 0.94 ^ Z.of_nat (List.length nows)) in *.
  assert (Hp0 : 0 <= p) by (apply Qpower_nat_nonneg; lra).
  assert (Hp : p < 0.02).
  { eapply Qle_lt_trans; [|exact decay_64_below_threshold].
    apply (Qpower_nat_decreasing 0.94 64 (List.length nows)); [lra | exact Hlen]. }
  apply Qabs_case; intro; nra.
Qed.

Lemma settled_after_64_ticks_witness :
  Server._has_settled_to_baseline
    (snd (ticks (repeat 20 64)
                (apply_burst 10 (Vibe.mk 0.9 0.8 0.2 0.5 0.8) None (init 0))))
    0.02 = true.
Proof.
  apply settled_after_64_ticks.
  - apply vclip_in_unit.
  - unfold in_unit, vall. simpl. repeat split; lra.
  - rewrite repeat_length. lia.
  - apply Forall_forall. intros x Hx. apply repeat_spec in Hx. subst x.
    vm_compute. discriminate.
Defined.



(** ** The amplifier, continued *)

Lemma vclip_literals_in_unit (v : vibe) : in_unit (vclip 0.0 1.0 v).
Proof.
  unfold in_unit, vall, vclip, vmap; simpl.
  repeat split;
    match goal with
    | |- context [clip ?lo ?hi ?x] =>
        pose proof (clip_bounds lo hi x ltac:(lra))
    end; lra.
Qed.

Lemma snap_drama_in_unit (sqrt : Q -> Q) (space : list vibe) (v : vibe)
    (drama : Q) (k : Z) (r : vibe) :
  in_unit v -> snap_drama sqrt space v drama k = Some r -> in_unit r.
Proof.
  intros Hv. unfold snap_drama.
  destruct (Qle_bool (Qmax 0.0 (Qmin 1.0 drama)) 0).
  - intro E. injection E as <-. exact Hv.
  - destruct (_nearest_exemplar sqrt space v k); [|discriminate].
    intro E. injection E as <-. apply vclip_literals_in_unit.
Qed.

(** X3.  Whatever the natural reading, the passion, the drama, [k] and
    the exemplar library, a vector returned by [amplify], and so the
    vector the transcript handler passes to [apply_burst], lies in
    [0,1]^5. *)
Theorem amplify_result_in_unit (sqrt : Q -> Q) (space : list vibe)
    (natural : vibe) :
  (forall passion drama k r,
     amplify sqrt space natural passion drama k = Some r -> in_unit r) /\
  (forall r, Pipeline.post_drama sqrt space natural = Some r -> in_unit r).
Proof.
  split.
  - intros passion drama k r. unfold amplify.
    apply snap_drama_in_unit. apply vclip_literals_in_unit.
  - intro r. unfold Pipeline.post_drama.
    apply snap_drama_in_unit. apply vclip_literals_in_unit.
Qed.

Lemma amplify_result_in_unit_witness :
  in_unit (amplify_passion (Vibe.mk 1.7 1.2 0.5 0.5 0.5) 2).
Proof.
  apply (proj1 (amplify_result_in_unit sqrt6
                  [Vibe.mk 0.9 0.9 0.5 0.5 0.5; Vibe.mk 0.1 0.1 0.5 0.5 0.5]
                  (Vibe.mk 1.7 1.2 0.5 0.5 0.5))
               2 (Some 0) 1%Z).
  reflexivity.
Defined.

Lemma drama_not_le_zero (drama : Q) :
  0 < drama -> Qle_bool (Qmax 0.0 (Qmin 1.0 drama)) 0 = false.
Proof.
  intro H. destruct (Qle_bool (Qmax 0.0 (Qmin 1.0 drama)) 0) eqn:E;
    [|reflexivity].
  apply Qle_bool_iff in E.
  destruct (Qlt_le_dec drama 1.0) as [K|K].
  - rewrite (Q.min_r 1.0 drama) in E by lra. rewrite Q.max_r in E by lra. lra.
  - rewrite (Q.min_l 1.0 drama) in E by lra. rewrite Q.max_r in E by lra. lra.
Qed.

(** X4.  With a drama above 0, [snap_drama] raises instead of returning
    when the library is empty, when [k] is 0, and when [k] is so negative
    that [[:k]] leaves no exemplar. *)
Theorem snap_drama_raises (sqrt : Q -> Q) (space : list vibe) (v : vibe)
    (drama : Q) (k : Z) :
  0 < drama ->
  space = [] \/ k = 0%Z \/ (k < 0 /\ Z.of_nat (List.length space) <= - k)%Z ->
  snap_drama sqrt space v drama k = None.
Proof.
  intros Hpos Hcase. unfold snap_drama.
  rewrite (drama_not_le_zero drama Hpos).
  assert (E : slice_to k (argsort (distances sqrt space v)) = []).
  { destruct Hcase as [-> | [-> | [Hk Hn]]]; unfold slice_to.
    - simpl. destruct (0 <=? k)%Z; destruct (Z.to_nat k); reflexivity.
    - reflexivity.
    - rewrite argsort_length, distances_length.
      assert (K : (0 <=? k)%Z = false) by (apply Z.leb_gt; exact Hk).
      rewrite K.
      replace (List.length space - Z.to_nat (- k))%nat with 0%nat by lia.
      reflexivity. }
  unfold _nearest_exemplar. rewrite E.
  destruct (k =? 1)%Z; reflexivity.
Qed.

Lemma snap_drama_raises_witness :
  snap_drama sqrt6 [Vibe.mk 0.9 0.9 0.5 0.5 0.5; Vibe.mk 0.1 0.1 0.5 0.5 0.5]
             (Vibe.mk 0.6 0.7 0.5 0.5 0.5) 0.65 0 = None.
Proof.
  apply snap_drama_raises.
  - lra.
  - right. left. reflexivity.
Defined.

(** *** The telemetry helper *)

Lemma sorted_firstn {A : Type} (R : A -> A -> Prop) (n : nat) (l : list A) :
  StronglySorted R l -> StronglySorted R (firstn n l).
Proof.
  intro H. revert n. induction H as [|a l Hs IH Hf]; intro n.
  - rewrite firstn_nil. constructor.
  - destruct n as [|n]; simpl; [constructor|].
    constructor; [apply IH|].
    rewrite Forall_forall in *. intros x Hx. apply Hf.
    rewrite <- (firstn_skipn n l). apply in_or_app. left. exact Hx.
Qed.

Lemma sorted_map {A B : Type} (R : A -> A -> Prop) (S : B -> B -> Prop)
    (f : A -> B) (l : list A) :
  (forall x y, R x y -> S (f x) (f y)) ->
  StronglySorted R l -> StronglySorted S (map f l).
Proof.
  intros HRS H. induction H as [|a l Hs IH Hf]; simpl; constructor.
  - exact IH.
  - rewrite Forall_forall in *. intros y Hy.
    apply in_map_iff in Hy. destruct Hy as (x & <- & Hx). apply HRS, Hf, Hx.
Qed.

Lemma nth_map_default {A B : Type} (f : A -> B) (l : list A) (i : nat)
    (d : A) (d' : B) :
  (i < List.length l)%nat -> nth i (map f l) d' = f (nth i l d).
Proof.
  intro H. rewrite (nth_indep _ d' (f d)) by (rewrite length_map; exact H).
  apply map_nth.
Qed.

(** X5.  For any [k >= 0], [get_nearest_exemplar] lists min(k, n)
    entries, each the name, source and distance of an exemplar of the
    dataset, in order of increasing distance; with [k = 1] and a non-empty
    dataset the entry names an exemplar that is nearest of all and is the
    exemplar [_nearest_exemplar] returns as the target. *)
Theorem get_nearest_exemplar_agrees (sqrt : Q -> Q)
    (examples : list Debug.example) (v : vibe) :
  (forall k, (0 <= k)%Z ->
     let entries := Debug.get_nearest_exemplar sqrt examples v k in
     List.length entries = Nat.min (Z.to_nat k) (List.length examples) /\
     StronglySorted Qle (map snd entries) /\
     forall entry, In entry entries ->
       exists e, In e examples /\
         entry = (Debug.name e, Debug.source e,
                  distance sqrt v (Debug.input e))) /\
  (examples <> [] ->
   exists e, In e examples /\
     Debug.get_nearest_exemplar sqrt examples v 1 =
       [(Debug.name e, Debug.source e, distance sqrt v (Debug.input e))] /\
     _nearest_exemplar sqrt (Debug.cinematic_space examples) v 1
       = Some (Debug.input e) /\
     forall e', In e' examples ->
       distance sqrt v (Debug.input e) <= distance sqrt v (Debug.input e')).
Proof.
  set (space := Debug.cinematic_space examples).
  set (ds := distances sqrt space v).
  set (d0 := Debug.mkExample vzero EmptyString EmptyString).
  assert (Hlen : List.length ds = List.length examples).
  { subst ds space. rewrite distances_length.
    unfold Debug.cinematic_space. apply length_map. }
  assert (Hentry : forall i, In i (argsort ds) ->
            (nth i (Debug.example_names examples) EmptyString,
             nth i (Debug.example_sources examples) EmptyString,
             nth i ds 0)
            = (Debug.name (nth i examples d0), Debug.source (nth i examples d0),
               distance sqrt v (Debug.input (nth i examples d0)))
            /\ In (nth i examples d0) examples).
  { intros i Hi. apply argsort_in_range in Hi. rewrite Hlen in Hi.
    split; [|apply nth_In; exact Hi].
    unfold Debug.example_names, Debug.example_sources.
    rewrite (nth_map_default Debug.name examples i d0) by exact Hi.
    rewrite (nth_map_default Debug.source examples i d0) by exact Hi.
    subst ds space. unfold distances, Debug.cinematic_space.
    rewrite map_map.
    rewrite (nth_map_default (fun x => distance sqrt v (Debug.input x))
                             examples i d0) by exact Hi.
    reflexivity. }
  split.
  - intros k Hk entries. subst entries. unfold Debug.get_nearest_exemplar.
    fold space. fold ds. unfold slice_to.
    assert (K : (0 <=? k)%Z = true) by (apply Z.leb_le; exact Hk).
    rewrite K. split; [|split].
    + rewrite length_map, length_firstn, argsort_length, Hlen. reflexivity.
    + rewrite map_map. simpl.
      apply (sorted_map (key_le ds) Qle (fun i => nth i ds 0)).
      * intros x y H. exact H.
      * apply sorted_firstn. apply argsort_sorted.
    + intros entry Hin. apply in_map_iff in Hin.
      destruct Hin as (i & <- & Hi).
      assert (Hi' : In i (argsort ds)).
      { rewrite <- (firstn_skipn (Z.to_nat k) (argsort ds)).
        apply in_or_app. left. exact Hi. }
      destruct (Hentry i Hi') as [E Hmem].
      exists (nth i examples d0). split; [exact Hmem | exact E].
  - intro Hne.
    assert (Hsne : space <> []).
    { subst space. unfold Debug.cinematic_space.
      destruct examples; [congruence | discriminate]. }
    destruct (argsort_distances_nonempty sqrt space Hsne v) as (i & rest & E).
    fold ds in E.
    assert (Hi : In i (argsort ds)) by (rewrite E; left; reflexivity).
    destruct (Hentry i Hi) as [Ei Hmem].
    pose proof (argsort_in_range ds i Hi) as Hr. rewrite Hlen in Hr.
    exists (nth i examples d0). split; [exact Hmem|]. split; [|split].
    + unfold Debug.get_nearest_exemplar. fold space. fold ds.
      unfold slice_to. simpl. rewrite E. simpl. rewrite Ei. reflexivity.
    + unfold _nearest_exemplar. fold ds. simpl. unfold slice_to. simpl.
      rewrite E. simpl. subst space. unfold Debug.cinematic_space.
      rewrite nth_error_map.
      rewrite (nth_error_nth' examples d0 Hr). reflexivity.
    + intros e' He'.
      destruct (In_nth _ _ d0 He') as (j & Hj & <-).
      assert (Hj' : In j (argsort ds)).
      { apply (Permutation_in _ (Permutation_sym (argsort_perm ds))).
        apply in_seq. rewrite Hlen. lia. }
      destruct (Hentry j Hj') as [Ej _].
      injection Ei as _ _ Edi. injection Ej as _ _ Edj.
      rewrite <- Edi, <- Edj.
      pose proof (argsort_sorted ds) as Hs. rewrite E in Hs.
      inversion Hs as [|? ? _ Hf]; subst.
      rewrite E in Hj'. destruct Hj' as [<- | Hj']; [apply Qle_refl|].
      rewrite Forall_forall in Hf. apply (Hf j Hj').
Qed.

(** ** The server, continued *)

(** *** The context buffer *)










(** *** Requests and transcripts *)

Lemma dispatch_step (s : server) (e : event) :
  ((if Pipeline.dispatches s e then 1 else 0)
   + transcript_count s + Pipeline.armed (handle s e)
   <= transcript_count (handle s e) + Pipeline.armed s)%nat.
Proof.
  destruct e as [now | p | r now now' | r now now']; simpl.
  - destruct (decay_loop_body_cases now s) as [(Hp & Hf & _ & _ & E) | E];
      rewrite E; unfold Pipeline.armed; simpl.
    + rewrite Hp, Hf. simpl. rewrite length_app. simpl.
      destruct (_ <? _)%nat; lia.
    + rewrite Nat.ltb_irrefl. simpl. lia.
  - destruct (receive_transcript p s) as [s'|] eqn:E; [|lia].
    unfold receive_transcript in E. destruct (words p); [discriminate|].
    match type of E with context [if ?c then _ else _] => destruct c end;
      [discriminate|].
    injection E as <-. unfold Pipeline.armed. simpl.
    destruct (_slow_pending s), (_slow_in_flight s); simpl; lia.
  - unfold _trigger_slow_baseline. destruct (slow_tasks s); [lia|].
    unfold Pipeline.armed, apply_reply. simpl.
    destruct (_update_baseline_async s r); simpl; lia.
  - unfold _startup_warm_baseline. destruct (warm_task s); [|lia].
    unfold Pipeline.armed, apply_reply. simpl.
    destruct (_update_baseline_async s r); simpl; lia.
Qed.

Lemma dispatch_count_run (es : list event) : forall s : server,
  (Pipeline.dispatch_count es s + transcript_count s
     + Pipeline.armed (Server.run es s)
   <= transcript_count (Server.run es s) + Pipeline.armed s)%nat.
Proof.
  induction es as [|e es IH]; intro s.
  - simpl. lia.
  - change (Server.run (e :: es) s) with (Server.run es (handle s e)).
    cbn [Pipeline.dispatch_count].
    pose proof (dispatch_step s e). pose proof (IH (handle s e)). lia.
Qed.

(** X7.  Along any run of the server the decay loop creates at most as
    many slow-estimator tasks as transcripts were accepted; when the
    pending flag is set and no request is in flight at the end, strictly
    fewer. *)
Theorem dispatches_bounded_by_transcripts (now0 : Q) (available : bool)
    (es : list event) :
  let s0 := startup now0 available in
  let s := Server.run es s0 in
  (Pipeline.dispatch_count es s0 <= transcript_count s)%nat /\
  (_slow_pending s = true -> _slow_in_flight s = false ->
   (Pipeline.dispatch_count es s0 < transcript_count s)%nat).
Proof.
  intros s0 s.
  pose proof (dispatch_count_run es s0) as H. fold s in H.
  change (transcript_count s0) with 0%nat in H.
  change (Pipeline.armed s0) with 0%nat in H.
  split; [lia|].
  intros Hp Hf. unfold Pipeline.armed in H. rewrite Hp, Hf in H. simpl in H. lia.
Qed.

Lemma dispatches_bounded_by_transcripts_witness :
  (Pipeline.dispatch_count
     [Transcript (mkPayload ["hello"%string] (Some 1%Q)
                            [(1%Q, (Vibe.mk 0.5 0.5 0.5 0.5 0.8)%Q)])]
     (startup 0 true) < 1)%nat.
Proof.
  destruct (dispatches_bounded_by_transcripts 0 true
     [Transcript (mkPayload ["hello"%string] (Some 1%Q)
                            [(1%Q, (Vibe.mk 0.5 0.5 0.5 0.5 0.8)%Q)])]) as [_ H].
  apply H; reflexivity.
Defined.

(** *** The range of what the server holds and sends *)

Lemma extract_baseline_in_unit (available : bool) (response : option string)
    (v : vibe) :
  Anchor.extract_baseline available response = Some v -> in_unit v.
Proof.
  unfold Anchor.extract_baseline.
  destruct available; [|discriminate].
  destruct response as [raw|]; [|discriminate].
  cbv beta iota zeta delta [negb].
  destruct (map Anchor.float_of
              (firstn 5 (Anchor.findall (Anchor.strip (Anchor.decode raw)))))
    as [|a [|b [|c [|d [|e [|f l]]]]]];
    cbn [List.length Nat.eqb andb forallb]; try discriminate.
  destruct (Anchor.in_range a) eqn:Ea; [|discriminate].
  destruct (Anchor.in_range b) eqn:Eb; [|discriminate].
  destruct (Anchor.in_range c) eqn:Ec; [|discriminate].
  destruct (Anchor.in_range d) eqn:Ed; [|discriminate].
  destruct (Anchor.in_range e) eqn:Ee; [|discriminate].
  simpl. intro E. injection E as <-.
  unfold Anchor.in_range in *.
  apply andb_true_iff in Ea, Eb, Ec, Ed, Ee.
  rewrite !Qle_bool_iff in Ea, Eb, Ec, Ed, Ee.
  unfold in_unit, vall. simpl. repeat split; lra.
Qed.

Lemma tolist_in_unit (v : vibe) : in_unit v -> Pipeline.list_in_unit (tolist v).
Proof.
  intros (H1 & H2 & H3 & H4 & H5). unfold Pipeline.list_in_unit, tolist.
  repeat constructor; lra.
Qed.

Lemma apply_reply_in_range (o : option vibe) (now now' : Q) (s : server) :
  (forall v, o = Some v -> in_unit v) ->
  Pipeline.server_in_range s -> Pipeline.server_in_range (apply_reply o now now' s).
Proof.
  intros Ho H. unfold apply_reply. destruct o as [v|]; [|exact H].
  specialize (Ho v eq_refl). unfold Pipeline.server_in_range. simpl.
  split; [apply vclip_in_unit|]. split; [exact Ho|].
  apply tolist_in_unit. exact Ho.
Qed.

Lemma bursts_in_range (influence_used : Q) (sns : list (Q * vibe)) :
  forall (b : Blender.state) (l : list Q),
  Forall (fun sn => in_unit (snd sn)) sns ->
  in_unit (baseline b) -> in_unit (current b) -> Pipeline.list_in_unit l ->
  let after :=
    fold_left
      (fun (acc : Blender.state * list Q) (sn : Q * vibe) =>
         let b := apply_burst (fst sn) (snd sn) (Some influence_used)
                              (fst acc) in
         (b, tolist (current b)))
      sns (b, l) in
  in_unit (baseline (fst after)) /\ in_unit (current (fst after)) /\
  Pipeline.list_in_unit (snd after).
Proof.
  induction sns as [|sn sns IH]; intros b l Hall Hb Hc Hl; simpl.
  - split; [|split]; assumption.
  - inversion Hall as [|? ? Hsn Hrest]; subst.
    apply IH; [exact Hrest | apply vclip_in_unit | exact Hsn |].
    apply tolist_in_unit. exact Hsn.
Qed.

Lemma handle_in_range (s : server) (e : event) :
  Pipeline.clamped_event e -> Pipeline.server_in_range s ->
  Pipeline.server_in_range (handle s e).
Proof.
  intros He H. destruct e as [now | p | r now now' | r now now']; simpl.
  - destruct H as (Hb & Hc & Hl).
    destruct (decay_loop_body_cases now s) as [(_ & _ & _ & _ & E) | E];
      rewrite E; unfold Pipeline.server_in_range; simpl;
      (split; [rewrite tick_baseline; exact Hb|];
       split; [apply tick_current_in_unit; assumption | exact Hl]).
  - destruct (receive_transcript p s) as [s'|] eqn:E; [|exact H].
    unfold receive_transcript in E. destruct (words p); [discriminate|].
    match type of E with context [if ?c then _ else _] => destruct c end;
      [discriminate|].
    injection E as <-. unfold Pipeline.server_in_range. simpl.
    destruct H as (Hb & Hc & Hl).
    apply bursts_in_range; assumption.
  - unfold _trigger_slow_baseline. destruct (slow_tasks s); [exact H|].
    assert (K : Pipeline.server_in_range
                  (apply_reply (_update_baseline_async s r) now now' s)).
    { apply apply_reply_in_range; [|exact H].
      intros v Ev. destruct r; [discriminate|].
      apply (extract_baseline_in_unit _ _ _ Ev). }
    exact K.
  - unfold _startup_warm_baseline. destruct (warm_task s); [|exact H].
    assert (K : Pipeline.server_in_range
                  (apply_reply (_update_baseline_async s r) now now' s)).
    { apply apply_reply_in_range; [|exact H].
      intros v Ev. destruct r; [discriminate|].
      apply (extract_baseline_in_unit _ _ _ Ev). }
    exact K.
Qed.

Lemma run_in_range (es : list event) : forall s : server,
  Forall Pipeline.clamped_event es -> Pipeline.server_in_range s ->
  Pipeline.server_in_range (Server.run es s).
Proof.
  induction es as [|e es IH]; intros s Hall H; [exact H|].
  inversion Hall; subst.
  change (Server.run (e :: es) s) with (Server.run es (handle s e)).
  apply IH; [assumption|]. apply handle_in_range; assumption.
Qed.

(** X8.  When the vectors the transcript handler applies lie in [0,1]^5
    (the amplifier's outputs do), then after any run of the server the
    blender's [baseline] and [current], the global [last_vibe], and the
    vector the next iteration of the decay loop sends to the device all
    lie in [0,1]^5, whatever the slow estimator replied. *)
Theorem server_values_in_unit (now0 : Q) (available : bool)
    (es : list event) :
  Forall Pipeline.clamped_event es ->
  let s := Server.run es (startup now0 available) in
  in_unit (baseline (blender s)) /\ in_unit (current (blender s)) /\
  Forall (fun x => 0 <= x <= 1) (last_vibe s) /\
  forall now, Forall (fun x => 0 <= x <= 1) (fst (tick now (blender s))).
Proof.
  intros Hall s.
  assert (H : Pipeline.server_in_range s).
  { apply run_in_range; [exact Hall|].
    unfold Pipeline.server_in_range, startup, in_unit, vall, Pipeline.list_in_unit. simpl.
    repeat split; try lra. repeat constructor; lra. }
  destruct H as (Hb & Hc & Hl).
  split; [exact Hb|]. split; [exact Hc|]. split; [exact Hl|].
  intro now. pose proof (tick_current_in_unit now (blender s) Hb Hc) as Ht.
  apply tolist_in_unit in Ht. revert Ht. unfold tick, Pipeline.list_in_unit.
  destruct (Qltb now (hold_until (blender s))); simpl; intro Ht; exact Ht.
Qed.

Lemma server_values_in_unit_witness :
  Forall (fun x => 0 <= x <= 1)
    (last_vibe
       (Server.run
          [Transcript (mkPayload ["hello"%string] None
                                 [(1, Vibe.mk 0.9 0.8 0.2 0.5 0.8)]);
           DecayTick 20;
           SlowDone (Generated (Some "0.3 0.4 0.5 0.6 0.7"%string)) 21 21]
          (startup 0 true))).
Proof.
  destruct (server_values_in_unit 0 true
              [Transcript (mkPayload ["hello"%string] None
                                     [(1, Vibe.mk 0.9 0.8 0.2 0.5 0.8)]);
               DecayTick 20;
               SlowDone (Generated (Some "0.3 0.4 0.5 0.6 0.7"%string)) 21 21])
    as (_ & _ & H & _).
  - repeat constructor; simpl; lra.
  - exact H.
Defined.

(** *** The transcript handler *)

(** X9.  [receive_transcript] answers 400 exactly when the text holds no
    word or an influence outside [0,1] is given, and then changes
    nothing.  An accepted transcript counts once, sets the pending flag
    and leaves the in-flight flag and the running tasks alone; with no
    sentence the blender and [last_vibe] stay; otherwise [current] and
    [last_vibe] are the vector of the last sentence alone, and the hold
    runs from the clock value read for that sentence. *)
Theorem receive_transcript_effect (p : payload) (s : server) :
  (receive_transcript p s = None <->
     words p = [] \/
     exists i, influence p = Some i /\ ~ (0 <= i <= 1)) /\
  (receive_transcript p s = None -> handle s (Transcript p) = s) /\
  forall s', receive_transcript p s = Some s' ->
    transcript_count s' = S (transcript_count s) /\
    _slow_pending s' = true /\
    _slow_in_flight s' = _slow_in_flight s /\
    slow_tasks s' = slow_tasks s /\
    (sentences p = [] ->
       blender s' = blender s /\ last_vibe s' = last_vibe s) /\
    (forall earlier now v, sentences p = earlier ++ [(now, v)] ->
       current (blender s') = v /\ last_vibe s' = tolist v /\
       hold_until (blender s') = now + DWELL_SECONDS + HOLD_SECONDS).
Proof.
  split; [|split].
  - unfold receive_transcript. destruct (words p) as [|w ws].
    + split; [intros _; left; reflexivity | reflexivity].
    + destruct (influence p) as [i|].
      * destruct (Qle_bool 0 i && Qle_bool i 1) eqn:E; simpl.
        -- split; [discriminate|]. intros [K | (j & Ej & Hj)]; [discriminate|].
           injection Ej as <-. apply andb_true_iff in E.
           rewrite !Qle_bool_iff in E. tauto.
        -- split; [|reflexivity]. intros _. right. exists i.
           split; [reflexivity|]. intro K.
           assert (Qle_bool 0 i && Qle_bool i 1 = true)
             by (apply andb_true_iff; rewrite !Qle_bool_iff; exact K).
           congruence.
      * simpl. split; [discriminate|].
        intros [K | (j & Ej & _)]; discriminate.
  - intro E. simpl. rewrite E. reflexivity.
  - intros s' E. unfold receive_transcript in E.
    destruct (words p); [discriminate|].
    match type of E with context [if ?c then _ else _] => destruct c end;
      [discriminate|].
    injection E as <-. simpl.
    do 4 (split; [reflexivity|]). split.
    + intros ->. simpl. split; reflexivity.
    + intros earlier now v ->. rewrite fold_left_app. simpl.
      repeat split; reflexivity.
Qed.

Lemma receive_transcript_effect_witness :
  last_vibe
    (handle (startup 0 true)
       (Transcript (mkPayload ["one"%string; "two"%string] None
                      [(1, Vibe.mk 0.9 0.8 0.2 0.5 0.8);
                       (2, Vibe.mk 0.1 0.2 0.3 0.4 0.5)])))
  = [0.1; 0.2; 0.3; 0.4; 0.5].
Proof.
  destruct (receive_transcript_effect
              (mkPayload ["one"%string; "two"%string] None
                 [(1, Vibe.mk 0.9 0.8 0.2 0.5 0.8);
                  (2, Vibe.mk 0.1 0.2 0.3 0.4 0.5)])
              (startup 0 true)) as (_ & _ & H).
  destruct (H _ eq_refl) as (_ & _ & _ & _ & _ & H').
  destruct (H' [(1, Vibe.mk 0.9 0.8 0.2 0.5 0.8)] 2
               (Vibe.mk 0.1 0.2 0.3 0.4 0.5) eq_refl) as (_ & E & _).
  exact E.
Defined.

(** ** The extractor *)

Import Extractor.

Lemma vad_entry_weight_pos (lexicon : string -> option vad) (w : string) :
  0 < snd (vad_entry lexicon w).
Proof.
  unfold vad_entry. destruct (lexicon w) as [[[v a] d]|]; simpl; [|lra].
  pose proof (Qabs_nonneg (v - 0.5)). pose proof (Qabs_nonneg (a - 0.5)).
  pose proof (Qabs_nonneg (d - 0.5)).
  set (x := Qabs (v - 0.5) + Qabs (a - 0.5) + Qabs (d - 0.5) + 0.01).
  assert (0 < x) by (subst x; lra).
  change (0 < x * x). nra.
Qed.

Lemma weights_sum_pos (lexicon : string -> option vad) (words : list string) :
  words <> [] ->
  0 < fold_right Qplus 0 (map snd (map (vad_entry lexicon) words)).
Proof.
  intro Hne. destruct words as [|w ws]; [congruence|]. clear Hne.
  revert w. induction ws as [|w' ws IH]; intro w; simpl.
  - pose proof (vad_entry_weight_pos lexicon w). lra.
  - pose proof (vad_entry_weight_pos lexicon w). specialize (IH w').
    simpl in IH. lra.
Qed.

(** X10.  [_get_vad] returns a reading for every text: with no word it
    is the neutral (0.5, 0.5, 0.5), and otherwise the weights sum to more
    than zero (each is positive), so [np.average] does not raise.
    [_get_complexity] lies in [0,1] and is 0.5 when the grade cannot be
    computed; [_get_coherence] is 0.8 for fewer than two sentences; and
    [extract] returns each of the five values within [0,1], unchanged
    when it already was. *)
Theorem extract_is_total_and_in_unit (lexicon : string -> option vad) :
  (forall words, exists r, _get_vad lexicon words = Some r) /\
  _get_vad lexicon [] = Some (0.5, 0.5, 0.5) /\
  (forall w, 0 < snd (vad_entry lexicon w)) /\
  (forall g, 0 <= _get_complexity g <= 1) /\
  _get_complexity None = 0.5 /\
  (forall e, _get_coherence [] = 0.8 /\ _get_coherence [e] = 0.8) /\
  (forall reading complexity coherence,
     in_unit (extract reading complexity coherence)) /\
  (forall v a d complexity coherence,
     in_unit (Vibe.mk v a d complexity coherence) ->
     extract (v, a, d) complexity coherence
     =v= Vibe.mk v a d complexity coherence).
Proof.
  split; [|split; [|split; [|split; [|split; [|split; [|split]]]]]].
  - intros words. unfold _get_vad.
    destruct words as [|w ws]; [eexists; reflexivity|].
    cbn [map]. unfold vad_average.
    pose proof (weights_sum_pos lexicon (w :: ws) ltac:(discriminate)) as H.
    cbn [map] in H.
    rewrite Qeq_bool_false by (intro K; rewrite K in H; lra).
    eexists. reflexivity.
  - reflexivity.
  - intro w. apply vad_entry_weight_pos.
  - intros [g|]; unfold _get_complexity; [|lra].
    pose proof (Q.le_min_l 1.0 (Qmax 0.0 (g / 20.0))).
    destruct (Q.min_spec 1.0 (Qmax 0.0 (g / 20.0))) as [[_ E] | [_ E]];
      rewrite E; [lra|].
    pose proof (Q.le_max_l 0.0 (g / 20.0)). rewrite E in H. lra.
  - reflexivity.
  - intro e. split; reflexivity.
  - intros [[v a] d] complexity coherence.
    unfold extract, in_unit, vall. simpl.
    repeat split;
      match goal with
      | |- context [clip ?lo ?hi ?x] =>
          pose proof (clip_bounds lo hi x ltac:(lra))
      end; lra.
  - intros v a d complexity coherence (H1 & H2 & H3 & H4 & H5).
    simpl in *. unfold extract, veq. simpl.
    repeat split; apply clip_inside; assumption.
Qed.

(** ** The estimator's correction *)


